(** * TreeDetect: tiling, tile cache, detection transform and pipeline

    A shallow embedding of the Python sources of TreeDetect

    - [TreeDetect/input_output/coordinate_utils.py]
    - [TreeDetect/data_preparation/geo_indices.py], [preprocess.py]
    - [TreeDetect/analyses/scale_space_tree_detection.py]
    - [TreeDetect/input_output/input_utils.py]
    - [TreeDetect/analyses/analysis_pipeline.py]

    and the properties of them that the specification states.

    Conventions.  A Python call that may raise returns a [result]; code
    that touches the file system or the raster services runs in the
    monad [io] over an explicit [world].  Floating-point values are
    [pyfloat]: the IEEE special values next to the finite values, which
    are real numbers.  Rounding is not part of the model.  Overflow is,
    where it decides what the code raises: a quotient of Python floats
    that is out of range is an infinity, which [int()] refuses.  The
    sine, cosine and arcsine of the C library are not computed: the
    model knows of them what [Libm] lists. *)

From Stdlib Require Import Reals Lra Lia ZArith Ascii String.
From stdpp Require Import base decidable option list strings pretty gmap.

Set Default Proof Using "Type".

(** ** Python exceptions and fallible computations *)

(** The classes of [Exception] the modelled code can meet.  [except
    Exception] catches every one of them. *)
Inductive exn : Set :=
  | ValueError
  | TypeError
  | AttributeError
  | KeyError
  | IndexError
  | ZeroDivisionError
  | OverflowError
  | OSError
  | AssertionError
  | RuntimeError.

#[global] Instance exn_eq_dec : EqDecision exn.
Proof. solve_decision. Defined.

Inductive result (A : Type) : Type :=
  | Ret (a : A)
  | Raise (e : exn).
Arguments Ret {A} a.
Arguments Raise {A} e.

#[global] Instance result_ret : MRet result := @Ret.
#[global] Instance result_bind : MBind result := λ A B f r,
  match r with
  | Ret a => f a
  | Raise e => Raise e
  end.
#[global] Instance result_fmap : FMap result := λ A B f r,
  match r with
  | Ret a => Ret (f a)
  | Raise e => Raise e
  end.

(** ** Floating-point values *)

Inductive pyfloat : Type :=
  | Fin (x : R)
  | PInf
  | NInf
  | NaN.

#[global] Instance Rlt_decision : RelDecision Rlt := Rlt_dec.
#[global] Instance Rle_decision : RelDecision Rle := Rle_dec.
#[global] Instance Req_decision : EqDecision R := Req_dec_T.


Definition of_int (z : Z) : pyfloat := Fin (IZR z).

Definition fneg (a : pyfloat) : pyfloat :=
  match a with
  | Fin x => Fin (- x)
  | PInf => NInf
  | NInf => PInf
  | NaN => NaN
  end.

Definition fadd (a b : pyfloat) : pyfloat :=
  match a, b with
  | NaN, _ | _, NaN => NaN
  | Fin x, Fin y => Fin (x + y)
  | PInf, NInf | NInf, PInf => NaN
  | PInf, _ | _, PInf => PInf
  | NInf, _ | _, NInf => NInf
  end.

Definition fsub (a b : pyfloat) : pyfloat := fadd a (fneg b).

(** An infinity times the finite factor [x]; [pos] is the sign of the
    infinity. *)
Definition scale_inf (x : R) (pos : bool) : pyfloat :=
  if decide (x = 0)%R then NaN
  else if decide (0 < x)%R then (if pos then PInf else NInf)
  else (if pos then NInf else PInf).

Definition fmul (a b : pyfloat) : pyfloat :=
  match a, b with
  | NaN, _ | _, NaN => NaN
  | Fin x, Fin y => Fin (x * y)
  | Fin x, PInf | PInf, Fin x => scale_inf x true
  | Fin x, NInf | NInf, Fin x => scale_inf x false
  | PInf, PInf | NInf, NInf => PInf
  | PInf, NInf | NInf, PInf => NInf
  end.

(** Division as numpy does it (and as Python does it for a divisor that
    is not zero): no exception, a zero divisor gives an infinity or a
    NaN.  Zeros carry no sign in the model; a zero divisor counts as
    [+0.0]. *)
Definition fdiv (a b : pyfloat) : pyfloat :=
  match a, b with
  | NaN, _ | _, NaN => NaN
  | Fin x, Fin y =>
      if decide (y = 0)%R then
        (if decide (x = 0)%R then NaN
         else if decide (0 < x)%R then PInf else NInf)
      else Fin (x / y)
  | Fin _, (PInf | NInf) => Fin 0
  | PInf, Fin y => if decide (y < 0)%R then NInf else PInf
  | NInf, Fin y => if decide (y < 0)%R then PInf else NInf
  | (PInf | NInf), (PInf | NInf) => NaN
  end.

(** The least magnitude that is rounded to an infinity:
    [2^1024 - 2^970], half a unit in the last place above the largest
    float. *)
Definition float_overflow : R := IZR (2 ^ 1024 - 2 ^ 970).

(** A finite value out of the range of a float becomes an infinity. *)
Definition overflow (v : pyfloat) : pyfloat :=
  match v with
  | Fin x =>
      if decide (float_overflow <= x)%R then PInf
      else if decide (x <= - float_overflow)%R then NInf
      else Fin x
  | _ => v
  end.

(** [a / b] on Python floats: a zero divisor raises, a quotient out of
    range is an infinity. *)
Definition py_div (a b : pyfloat) : result pyfloat :=
  match b with
  | Fin y =>
      if decide (y = 0)%R then Raise ZeroDivisionError
      else Ret (overflow (fdiv a b))
  | _ => Ret (fdiv a b)
  end.

(** [a < b] and [a <= b]; false as soon as a NaN is compared. *)
Definition flt (a b : pyfloat) : bool :=
  match a, b with
  | NaN, _ | _, NaN => false
  | Fin x, Fin y => bool_decide (x < y)%R
  | NInf, (Fin _ | PInf) => true
  | Fin _, PInf => true
  | _, _ => false
  end.

Definition fle (a b : pyfloat) : bool :=
  match a, b with
  | NaN, _ | _, NaN => false
  | Fin x, Fin y => bool_decide (x <= y)%R
  | NInf, _ => true
  | _, PInf => true
  | _, _ => false
  end.

(** The [math] module: a domain error is a [ValueError]. *)
Definition math_pi : pyfloat := Fin PI.

Definition math_radians (x : pyfloat) : pyfloat := fmul x (Fin (PI / 180)).

(** The functions of the C library behind [math.sin], [math.cos],
    [math.asin] and [np.cos], on finite arguments.  Their values are
    not computed; the model assumes of them what is listed: sine and
    cosine stay within [-1, 1], the sine is odd, and the sine and the
    arcsine of zero are zero. *)
Class Libm : Type := {
  libm_sin : R → R;
  libm_cos : R → R;
  libm_asin : R → R;
  npy_cos : R → R;
  libm_sin_bound : ∀ x, (-1 <= libm_sin x <= 1)%R;
  libm_cos_bound : ∀ x, (-1 <= libm_cos x <= 1)%R;
  libm_sin_0 : libm_sin 0 = 0%R;
  libm_sin_odd : ∀ x, libm_sin (- x) = (- libm_sin x)%R;
  libm_asin_0 : libm_asin 0 = 0%R;
}.

(** The functions of real analysis are one such library. *)
Definition real_libm : Libm := {|
  libm_sin := sin;
  libm_cos := cos;
  libm_asin := asin;
  npy_cos := cos;
  libm_sin_bound := SIN_bound;
  libm_cos_bound := COS_bound;
  libm_sin_0 := sin_0;
  libm_sin_odd := sin_neg;
  libm_asin_0 := asin_0;
|}.

Definition math_sin `{L : Libm} (x : pyfloat) : result pyfloat :=
  match x with
  | Fin r => Ret (Fin (libm_sin r))
  | NaN => Ret NaN
  | PInf | NInf => Raise ValueError
  end.

Definition math_cos `{L : Libm} (x : pyfloat) : result pyfloat :=
  match x with
  | Fin r => Ret (Fin (libm_cos r))
  | NaN => Ret NaN
  | PInf | NInf => Raise ValueError
  end.

Definition math_sqrt (x : pyfloat) : result pyfloat :=
  match x with
  | Fin r => if decide (r < 0)%R then Raise ValueError else Ret (Fin (sqrt r))
  | PInf => Ret PInf
  | NInf => Raise ValueError
  | NaN => Ret NaN
  end.

Definition math_asin `{L : Libm} (x : pyfloat) : result pyfloat :=
  match x with
  | Fin r =>
      if decide (-1 <= r)%R then
        if decide (r <= 1)%R then Ret (Fin (libm_asin r)) else Raise ValueError
      else Raise ValueError
  | NaN => Ret NaN
  | PInf | NInf => Raise ValueError
  end.

(** numpy's [cos] and [ceil] never raise. *)
Definition np_cos `{L : Libm} (x : pyfloat) : pyfloat :=
  match x with
  | Fin r => Fin (npy_cos r)
  | _ => NaN
  end.

Definition np_ceil (x : pyfloat) : pyfloat :=
  match x with
  | Fin r => Fin (IZR (Zceil r))
  | v => v
  end.

(** [int(x)]: truncation towards zero. *)
Definition py_int (x : pyfloat) : result Z :=
  match x with
  | Fin r => Ret (if decide (0 <= r)%R then Zfloor r else Zceil r)
  | NaN => Raise ValueError
  | PInf | NInf => Raise OverflowError
  end.

(** ** coordinate_utils.py *)

Definition bbox : Type := pyfloat * pyfloat * pyfloat * pyfloat.

Definition haversine `{L : Libm} (lon1 lat1 lon2 lat2 : pyfloat)
  : result pyfloat :=
  let lon1 := math_radians lon1 in
  let lat1 := math_radians lat1 in
  let lon2 := math_radians lon2 in
  let lat2 := math_radians lat2 in
  let dlon := fsub lon2 lon1 in
  let dlat := fsub lat2 lat1 in
  s1 ← math_sin (fdiv dlat (of_int 2));
  c1 ← math_cos lat1;
  c2 ← math_cos lat2;
  s2 ← math_sin (fdiv dlon (of_int 2));
  let a := fadd (fmul s1 s1) (fmul (fmul c1 c2) (fmul s2 s2)) in
  q ← math_sqrt a;
  t ← math_asin q;
  let c := fmul (of_int 2) t in
  let km_to_m := 1000%Z in
  let radius_of_earth_in_km := 6371%Z in
  let dist := fmul (fmul c (of_int radius_of_earth_in_km)) (of_int km_to_m) in
  Ret dist.

(** The quantity [a] of [haversine] for two finite points. *)
Definition haversine_a `{L : Libm} (lon1 lat1 lon2 lat2 : R) : R :=
  let dlat := ((lat2 * (PI / 180) + - (lat1 * (PI / 180))) / 2)%R in
  let dlon := ((lon2 * (PI / 180) + - (lon1 * (PI / 180))) / 2)%R in
  (libm_sin dlat * libm_sin dlat
   + libm_cos (lat1 * (PI / 180)) * libm_cos (lat2 * (PI / 180))
     * (libm_sin dlon * libm_sin dlon))%R.

Definition haversine_inv `{L : Libm} (lon1 lat1 dx dy : pyfloat)
  : pyfloat * pyfloat :=
  let m_to_km := 1000%Z in
  let radius_of_earth_in_km := 6371%Z in
  let dy := fdiv dy (of_int m_to_km) in
  let dx := fdiv dx (of_int m_to_km) in
  let lon2 :=
    fadd lon1
      (fdiv (fmul (fdiv dx (of_int radius_of_earth_in_km))
                  (fdiv (of_int 180) math_pi))
            (np_cos (fdiv (fmul lat1 math_pi) (of_int 180)))) in
  let lat2 :=
    fadd lat1
      (fmul (fdiv dy (of_int radius_of_earth_in_km))
            (fdiv (of_int 180) math_pi)) in
  (lon2, lat2).

Definition check_bbox (b : bbox) : bbox :=
  let '(lon1, lat1, lon2, lat2) := b in
  let '(lon1, lon2) := if flt lon2 lon1 then (lon2, lon1) else (lon1, lon2) in
  let '(lat1, lat2) := if flt lat2 lat1 then (lat2, lat1) else (lat1, lat2) in
  (lon1, lat1, lon2, lat2).

(** One row of the tile table [coord_df]. *)
Record coord_row : Type := CoordRow {
  filename : string;
  lon_min : pyfloat;
  lat_min : pyfloat;
  lon_max : pyfloat;
  lat_max : pyfloat;
}.

(** ['{0}_{1}'.format(i, j)] *)
Definition tile_fname (i j : Z) : string := pretty i +:+ "_" +:+ pretty j.

(** The body of the inner loop of [cut_up_bbox]: the row appended for
    column [i] and row [j]. *)
Definition tile_row (lon1 lat1 stepsize_lon stepsize_lat : pyfloat) (i j : Z)
  : coord_row :=
  let lon := fadd lon1 (fmul (of_int i) stepsize_lon) in
  let lon_new := fadd lon stepsize_lon in
  let lat := fadd lat1 (fmul (of_int j) stepsize_lat) in
  let lat_new := fadd lat stepsize_lat in
  CoordRow (tile_fname i j) lon lat lon_new lat_new.

(** [for x in range(n): acc = body(acc, x)] *)
Definition for_range {A} (n : Z) (body : A → Z → A) (acc : A) : A :=
  foldl body acc (seqZ 0 n).

(** The two nested loops, appending to the table. *)
Definition cut_up_loops (lon1 lat1 stepsize_lon stepsize_lat : pyfloat)
    (steps_horizontal steps_vertical : Z) : list coord_row :=
  for_range steps_horizontal (λ rows i,
    for_range steps_vertical (λ rows j,
      rows ++ [tile_row lon1 lat1 stepsize_lon stepsize_lat i j]) rows) [].

(** The step counts [(steps_horizontal, steps_vertical)]. *)
Definition cut_up_steps `{L : Libm} (bbox_full : bbox) (im_size_out : Z)
    (pixel_size : pyfloat) : result (Z * Z) :=
  let '(b0, b1, b2, b3) := bbox_full in
  map_width_meter ← haversine b0 b1 b2 b1;
  map_height_meter ← haversine b0 b1 b0 b3;
  map_height_pixel ← py_div map_height_meter pixel_size;
  map_width_pixel ← py_div map_width_meter pixel_size;
  v ← py_div map_height_pixel (of_int im_size_out);
  steps_vertical ← py_int (np_ceil v);
  h ← py_div map_width_pixel (of_int im_size_out);
  steps_horizontal ← py_int (np_ceil h);
  Ret (steps_horizontal, steps_vertical).

Definition cut_up_bbox `{L : Libm} (bbox_full : bbox) (im_size_out : Z)
    (pixel_size : pyfloat) : result (list coord_row * bbox) :=
  '(steps_horizontal, steps_vertical) ←
      cut_up_steps bbox_full im_size_out pixel_size;
  let lon1 := bbox_full.1.1.1 in
  let lat1 := bbox_full.1.1.2 in
  let '(lon2, lat2) :=
    haversine_inv lon1 lat1
      (fmul (of_int im_size_out) pixel_size)
      (fmul (of_int im_size_out) pixel_size) in
  let '(lonfinal, latfinal) :=
    haversine_inv lon1 lat1
      (fmul (fmul (of_int im_size_out) pixel_size) (of_int steps_horizontal))
      (fmul (fmul (of_int im_size_out) pixel_size) (of_int steps_vertical)) in
  let total_bounding_box := (lon1, lat1, lonfinal, latfinal) in
  let stepsize_lon := fsub lon2 lon1 in
  let stepsize_lat := fsub lat2 lat1 in
  let coord_df :=
    cut_up_loops lon1 lat1 stepsize_lon stepsize_lat
      steps_horizontal steps_vertical in
  Ret (coord_df, total_bounding_box).

(** The first two steps of [initialize_analysis]: the Geographic Tiler. *)
Definition initialize_analysis_tiling `{L : Libm} (bbox_img : bbox)
    (im_size_out : Z) (pixel_size : pyfloat) : result (list coord_row * bbox) :=
  let bbox_img := check_bbox bbox_img in
  cut_up_bbox bbox_img im_size_out pixel_size.

(** The number of tiles along one axis, from the length of the box
    along it: [int(np.ceil(meters / pixel_size / im_size_out))]. *)
Definition pixel_steps (meters pixel_size : pyfloat) (im_size_out : Z)
  : result Z :=
  pixels ← py_div meters pixel_size;
  v ← py_div pixels (of_int im_size_out);
  py_int (np_ceil v).



(** The character [c] does not occur in [s]. *)
Fixpoint no_char (c : ascii) (s : string) : Prop :=
  match s with
  | EmptyString => True
  | String c' s' => c' ≠ c ∧ no_char c s'
  end.

(** ** Dictionaries, files and the outside world *)

(** A Python [dict] with string keys, in insertion order. *)
Definition dict (V : Type) : Type := list (string * V).

Fixpoint dict_get {V} (d : dict V) (k : string) : option V :=
  match d with
  | [] => None
  | (k', v) :: d' => if decide (k = k') then Some v else dict_get d' k
  end.

Fixpoint dict_set {V} (d : dict V) (k : string) (v : V) : dict V :=
  match d with
  | [] => [(k, v)]
  | (k', v') :: d' =>
      if decide (k = k') then (k, v) :: d' else (k', v') :: dict_set d' k v
  end.

(** [d[k]] *)
Definition getitem {V} (d : dict V) (k : string) : result V :=
  match dict_get d k with
  | Some v => Ret v
  | None => Raise KeyError
  end.

(** A two-dimensional array, by rows; an image of shape [H x W x C] is
    kept as its [C] channel planes, so [img[:,:,i]] is the plane [i]. *)
Definition matrix : Type := list (list pyfloat).
Definition image : Type := list matrix.

(** One row of the result of the detection:
    [longitude,latitude,radius,diameter,circumference,area]. *)
Record feature : Type := Feature {
  longitude : pyfloat;
  latitude : pyfloat;
  radius : pyfloat;
  diameter : pyfloat;
  circumference : pyfloat;
  area : pyfloat;
}.

Inductive file : Type :=
  | CsvFile (columns : dict (list string))
  | RasterFile (img : image)
  | ResultFile (rows : list feature)
  | OtherFile.

(** A request sent to a raster service: layer and bounding box. *)
Definition wms_request : Type := string * bbox.

Record world : Type := World {
  files : gmap string file;
  wms_requests : list wms_request;
  stdout : list string;
}.

(** Code with effects: it reads and changes the world and may raise;
    what it has done before it raises stays done. *)
Definition io (A : Type) : Type := world → result A * world.

#[global] Instance io_ret : MRet io := λ A a w, (Ret a, w).
#[global] Instance io_bind : MBind io := λ A B f m w,
  match m w with
  | (Ret a, w') => f a w'
  | (Raise e, w') => (Raise e, w')
  end.

Definition lift {A} (r : result A) : io A := λ w, (r, w).

(** [try: body / except Exception as e: handler] *)
Definition try_except {A} (body : io A) (handler : exn → io A) : io A := λ w,
  match body w with
  | (Ret a, w') => (Ret a, w')
  | (Raise e, w') => handler e w'
  end.

(** A call that leaves out a required positional parameter: Python raises
    [TypeError] before the body of [f] runs. *)
Definition call_missing_arg {A B} (f : A → io B) : io B :=
  λ w, (Raise TypeError, w).

(** [for x in xs: acc = body(acc, x)], stopping at the first exception. *)
Fixpoint for_each {A S} (xs : list A) (body : S → A → io S) (acc : S) : io S :=
  match xs with
  | [] => mret acc
  | x :: xs' => acc' ← body acc x; for_each xs' body acc'
  end.

(** [print(s)], for the messages that are plain text.  Lines whose text
    depends on the clock, on an exception object or on how Python or
    pandas renders an object are not written to [stdout]. *)
Definition print (s : string) : io unit := λ w,
  (Ret (), World (files w) (wms_requests w) (stdout w ++ [s])).

Definition os_path_exists (path : string) : io bool := λ w,
  (Ret (bool_decide (is_Some (files w !! path))), w).

Definition write_file (path : string) (f : file) : io unit := λ w,
  (Ret (), World (<[path := f]> (files w)) (wms_requests w) (stdout w)).

Definition ends_with_slash (s : string) : bool :=
  match last (String.list_ascii_of_string s) with
  | Some c => bool_decide (c = "/"%char)
  | None => false
  end.

(** [os.path.join(a, b)] on POSIX paths. *)
Definition os_path_join (a b : string) : string :=
  if String.prefix "/" b then b
  else if bool_decide (a = "") || ends_with_slash a then a +:+ b
  else a +:+ "/" +:+ b.

(** [pd.read_csv(path)]; pandas' parser errors derive from [ValueError]. *)
Definition pd_read_csv (path : string) : io (dict (list string)) := λ w,
  match files w !! path with
  | Some (CsvFile columns) => (Ret columns, w)
  | Some _ => (Raise ValueError, w)
  | None => (Raise OSError, w)
  end.

(** ** Settings *)

Record api_settings : Type := ApiSettings {
  api_use : bool;
  api_servicetype : string;
  api_url : string;
  api_version : string;
  api_layer : string;
  api_format : string;
  api_save_format : string;
  api_max_value : pyfloat;
}.

Record settings : Type := Settings {
  (* settings['general'] *)
  save_wms_data_to_hard_drive : bool;
  redo_if_already_processed : bool;
  save_results : bool;
  (* settings['data'] *)
  data_api : dict api_settings;
  data_coord_crs : string;
  data_im_size_out : Z;
  data_pixel_size : pyfloat;
  (* what else settings['data'] holds under a layer key *)
  data_other : dict api_settings;
  (* settings['scale_space'] *)
  minrad : pyfloat;
  maxrad : pyfloat;
  steprad : pyfloat;
  threshold_rel_blob_peaks : pyfloat;
  blob_overlap_threshold : pyfloat;
  output_file_format : string;
}.

(** The collaborators outside the repository: the OWSLib client and
    skimage's blob detector. *)
Record wms_client : Type := WmsClient {
  client_url : string;
  client_version : string;
}.

Record blob_kwargs : Type := BlobKwargs {
  min_sigma : pyfloat;
  max_sigma : pyfloat;
  num_sigma : Z;
  overlap : pyfloat;
  threshold_rel : pyfloat;
}.

Class Services : Type := {
  (** [WebMapService(url, version=...)]: contacts the server. *)
  wms_connect : string → string → world → result wms_client;
  (** [io.imread(service.getmap(...).read())]: the decoded answer. *)
  wms_getmap : wms_client → api_settings → string → bbox → Z → world → result image;
  (** [skimage.feature.blob_log(img, **kwargs)]: rows [(row, col, sigma)]. *)
  blob_log : matrix → blob_kwargs → result (list (pyfloat * pyfloat * pyfloat));
}.

(** ** geo_indices.py and preprocess.py *)

(** Element-wise operation on two arrays of one shape. *)
Definition np_map2 (f : pyfloat → pyfloat → pyfloat) (a b : matrix) : matrix :=
  zip_with (zip_with f) a b.

Definition calculate_ndvi (nir red : matrix) : matrix :=
  np_map2 fdiv (np_map2 fsub nir red) (np_map2 fadd nir red).

Definition clamp_values (img : image) (max_value : pyfloat) : image :=
  map (map (map (λ v, fdiv v max_value))) img.

Definition split_channels (img : image) : list matrix := img.

(** The index at one pixel when every operation rounds its exact
    result with [rnd]; with the identity for [rnd] it is the value that
    [calculate_ndvi] has on finite input. *)
Definition ndvi_rounded (rnd : R → R) (nir red : R) : R :=
  rnd (rnd (nir - red) / rnd (nir + red))%R.

(** ** scale_space_tree_detection.py *)

Definition math_sqrt2 : pyfloat := Fin (sqrt 2).

Definition log_blob_detect `{Services} (img : matrix) (kwargs : blob_kwargs)
  : result (list (pyfloat * pyfloat * pyfloat)) :=
  blobs ← blob_log img kwargs;
  Ret (map (λ '(r, c, s), (r, c, fmul s math_sqrt2)) blobs).

Definition points_to_coords `{L : Libm} (points : list (pyfloat * pyfloat))
    (pixel_size : pyfloat) (b : bbox) : list (pyfloat * pyfloat) :=
  let lon1 := b.1.1.1 in
  let lat1 := b.1.1.2 in
  let points := map (λ '(x, y), (fmul x pixel_size, fmul y pixel_size)) points in
  map (λ '(x, y), haversine_inv lon1 lat1 x y) points.

(** [np.float32] values are [pyfloat]s too: the conversion rounds, and
    rounding is not in the model. *)
Definition astype_float32 (v : pyfloat) : pyfloat := v.

(** The section "Save, and return results" of [scale_space_tree_detect]
    up to the table of features.  Without a detection [points_to_coords]
    returns an array of shape [(0,)], and storing it in the two
    coordinate columns raises. *)
Definition blobs_to_features `{L : Libm}
    (blobs : list (pyfloat * pyfloat * pyfloat))
    (ndvi : matrix) (pixel_size : pyfloat) (b : bbox) : result (list feature) :=
  let blobs :=
    map (λ '(r, c, s), (astype_float32 r, astype_float32 c, astype_float32 s)) blobs in
  (* flip x and y coordinates *)
  let blobs := map (λ '(r, c, s), (c, r, s)) blobs in
  (* flip vertical pixel coordinates *)
  let shape0 := of_int (Z.of_nat (length ndvi)) in
  let blobs := map (λ '(x, y, s), (x, fsub shape0 y, s)) blobs in
  let coords := points_to_coords (map (λ '(x, y, s), (x, y)) blobs) pixel_size b in
  blobs ←
    match coords with
    | [] => Raise ValueError
    | _ => Ret (zip_with (λ '(lon, lat) '(x, y, s), (lon, lat, s)) coords blobs)
    end;
  (* radius in pixels to radius in meters *)
  let blobs := map (λ '(lon, lat, s), (lon, lat, fmul s pixel_size)) blobs in
  (* diameter, circumference, area *)
  let blobs := map (λ '(lon, lat, r), (lon, lat, r, fmul r (of_int 2))) blobs in
  let blobs :=
    map (λ '(lon, lat, r, d), (lon, lat, r, d, fmul (fmul r (of_int 2)) math_pi)) blobs in
  Ret (map (λ '(lon, lat, r, d, c), Feature lon lat r d c (fmul (fmul r r) math_pi))
         blobs).

Definition scale_space_tree_detect `{Services} `{L : Libm}
    (images : dict image) (folders : dict string) (s : settings)
    (fname : string) (b : bbox) : io (option (list feature)) :=
  print "doing scale space tree detection";;
  skip ←
    (if redo_if_already_processed s then mret false
     else
       results ← lift (getitem folders "results");
       os_path_exists (os_path_join results (fname +:+ ".csv")));
  if (skip : bool) then mret None
  else
    let pixel_size := data_pixel_size s in
    nir_api ← lift (getitem (data_api s) "nir");
    let nir_max_value := api_max_value nir_api in
    nir_img ← lift (getitem images "nir");
    let nir_img := clamp_values nir_img nir_max_value in
    '(nir, red) ← lift (match split_channels nir_img with
                        | [nir; red; green] => Ret (nir, red)
                        | _ => Raise ValueError
                        end);
    let ndvi := calculate_ndvi nir red in
    minradpix ← lift (py_div (minrad s) pixel_size);
    maxradpix ← lift (py_div (maxrad s) pixel_size);
    let difrad := fsub (maxrad s) (minrad s) in
    difradpix ← lift (py_div difrad pixel_size);
    stepradpix ← lift (py_div (steprad s) pixel_size);
    q ← lift (py_div difradpix stepradpix);
    nscales ← lift (py_int q);
    blobs ← lift (log_blob_detect ndvi
      (BlobKwargs minradpix maxradpix nscales
         (blob_overlap_threshold s) (threshold_rel_blob_peaks s)));
    result ← lift (blobs_to_features blobs ndvi pixel_size b);
    (if save_results s then
       print "saving results";;
       results ← lift (getitem folders "results");
       write_file (os_path_join results (fname +:+ "." +:+ output_file_format s))
         (ResultFile result)
     else mret ());;
    mret (Some result).

(** ** input_utils.py *)

(** The loop of [images_already_saved], which returns [False] at the
    first enabled layer without a file. *)
Fixpoint images_already_saved_loop (folders : dict string) (fname : string)
    (apis : dict api_settings) : io bool :=
  match apis with
  | [] => mret true
  | (api_key, a) :: rest =>
      if api_use a then
        folder_path ← lift (getitem folders api_key);
        let save_format := api_save_format a in
        let img_path := os_path_join folder_path (fname +:+ "." +:+ save_format) in
        already_saved ← os_path_exists img_path;
        if (already_saved : bool) then images_already_saved_loop folders fname rest
        else mret false
      else images_already_saved_loop folders fname rest
  end.

Definition images_already_saved (folders : dict string) (fname : string)
    (s : settings) : io bool :=
  images_already_saved_loop folders fname (data_api s).

(** The body starts with [folders.item()], which a dict does not have. *)
Definition get_images_from_hard_drive (folders : dict string) (s : settings)
    (fname : string) (use_wms : dict bool) : io (dict image) :=
  print "Fetching images from hard drive";;
  lift (Raise AttributeError).

(** [settings['data'][key]['save_format']] as [save_images] reads it: the
    layers are under [settings['data']['api']], so a layer key finds
    something only if the configuration repeats it next to ['api']. *)
Definition data_key_save_format (s : settings) (key : string) : result string :=
  if bool_decide (key = "api") then
    _ ← getitem (data_api s) "save_format"; Raise ValueError
  else if bool_decide (key ∈ ["coord_crs"; "im_size_out"; "pixel_size"]) then
    Raise TypeError
  else
    a ← getitem (data_other s) key; Ret (api_save_format a).

Definition save_images (images : dict image) (folders : dict string)
    (fname : string) (s : settings) : io unit :=
  for_each images (λ _ '(key, img),
    folder ← lift (getitem folders key);
    save_format ← lift (data_key_save_format s key);
    let filepath := os_path_join folder (fname +:+ "." +:+ save_format) in
    write_file filepath (RasterFile img)) ().

(** One request to a raster service, recorded in the world. *)
Definition getmap_imread `{Services} (service : wms_client) (a : api_settings)
    (crs : string) (b : bbox) (size : Z) : io image := λ w,
  (wms_getmap service a crs b size w,
   World (files w) (wms_requests w ++ [(api_layer a, b)]) (stdout w)).

Definition get_images_from_wms_service `{Services} (wmses : dict wms_client)
    (s : settings) (b : bbox) : io (dict image) :=
  print "Fetching images from wms services";;
  let coord_crs := data_coord_crs s in
  let im_size_out := data_im_size_out s in
  for_each wmses (λ images '(api_key, api_service),
    a ← lift (getitem (data_api s) api_key);
    if api_use a then
      img ←
        (if bool_decide (api_servicetype a = "WebMapService") then
           getmap_imread api_service a coord_crs b im_size_out
         else lift (Raise ValueError));
      mret (dict_set images api_key img)
    else mret images) [].

(** [load_data] returns [(images, status)].  The two [try] blocks are
    written with the values the local variables have when the handler
    runs: [images] is assigned before [save_images] is called. *)
Definition load_data `{Services} (folders : dict string) (s : settings)
    (fname : string) (b : bbox) (wmses : dict wms_client)
  : io (dict image * string) :=
  let images : dict image := [] in
  let status := "loading" in
  let save := save_wms_data_to_hard_drive s in
  cached ← (if save then images_already_saved folders fname s else mret false);
  if (cached : bool) then
    try_except
      (images ← call_missing_arg (get_images_from_hard_drive folders s fname);
       mret (images, "loaded"))
      (λ e, mret (images, "retry"))
  else if bool_decide (status = "loading") || bool_decide (status = "retry") then
    try_except
      (images ← get_images_from_wms_service wmses s b;
       try_except
         ((if save then save_images images folders fname s else mret ());;
          mret (images, "loaded"))
         (λ e, mret (images, "load_fail")))
      (λ e, mret (images, "load_fail"))
  else mret (images, status).

(** The rows of [coord_df] whose filename is [try_el], by index. *)
Definition matching_indices (coord_df : list coord_row) (try_el : string)
  : list nat :=
  (filter (λ ir, filename ir.2 = try_el) (imap (λ i r, (i, r)) coord_df)).*1.

Definition get_todo_filenames (coord_df : list coord_row)
    (todo_filepath : string) : io (option (list nat)) :=
  try_except
    (there ← os_path_exists todo_filepath;
     if (there : bool) then
       try_df ← pd_read_csv todo_filepath;
       match dict_get try_df "filename" with
       | None =>
           print "There is no filename column in todo csv file, or there are no entries in the column. Using the full set.";;
           mret None
       | Some [] =>
           print "There is no filename column in todo csv file, or there are no entries in the column. Using the full set.";;
           mret None
       | Some col =>
           indices ← for_each col (λ indices try_el,
             if bool_decide (try_el ∈ filename <$> coord_df) then
               match matching_indices coord_df try_el with
               | ind :: _ => mret (indices ++ [ind])
               | [] => lift (Raise IndexError)
               end
             else
               print (try_el +:+ " not in coords.");;
               mret indices) [];
           mret (Some indices)
       end
     else mret None)
    (λ e,
       print "Something went wrong in the todo file loader. Using the full set instead.";;
       mret None).

(** ** analysis_pipeline.py *)

Definition analysis_method_t : Type :=
  dict image → dict string → settings → string → bbox → io (option (list feature)).

(** "Setup web map services" *)
Definition setup_data_getters `{Services} (s : settings) : io (dict wms_client) :=
  for_each (data_api s) (λ data_getters '(api_key, a),
    if api_use a then
      if bool_decide (api_servicetype a = "WebMapService") then
        client ← (λ w, (wms_connect (api_url a) (api_version a) w, w));
        mret (dict_set data_getters api_key client)
      else lift (Raise ValueError)
    else mret data_getters) [].

(** "Setup which sections of the map should be fetched": the list
    [total] of row indices. *)
Definition select_total (folders : dict string) (coord_df : list coord_row)
    (todo : option string) : io (list nat) :=
  let total := seq 0 (length coord_df) in
  match todo with
  | Some t =>
      base ← lift (getitem folders "base");
      let todo_filepath := os_path_join base (t +:+ ".csv") in
      print ("using todo file: " +:+ t);;
      total_try ← get_todo_filenames coord_df todo_filepath;
      match total_try with
      | Some (c :: l) => mret (c :: l)
      | _ => mret total
      end
  | None => mret total
  end.

(** [coord_df.iloc[c]] *)
Definition iloc (coord_df : list coord_row) (c : nat) : result coord_row :=
  match coord_df !! c with
  | Some row => Ret row
  | None => Raise IndexError
  end.

(** The state of the main loop: [succeeded], [failed] and [done]. *)
Record loop_state : Type := LoopState {
  succeeded : list string;
  failed : list string;
  done_count : nat;
}.

(** The body of the main loop for the row index [c]. *)
Definition process_tile `{Services} (s : settings) (folders : dict string)
    (coord_df : list coord_row) (analysis_method : option analysis_method_t)
    (data_getters : dict wms_client) (ntotal : nat)
    (st : loop_state) (c : nat) : io loop_state :=
  print ("Processing bbox: " +:+ pretty (done_count st + 1) +:+ "/" +:+ pretty ntotal);;
  coord ← lift (iloc coord_df c);
  let b := (lon_min coord, lat_min coord, lon_max coord, lat_max coord) in
  let fname := filename coord in
  '(succeeded', failed') ←
    try_except
      ('(images, status) ← load_data folders s fname b data_getters;
       if bool_decide (status = "loaded") then
         match analysis_method with
         | Some analyse => analyse images folders s fname b
         | None => mret None
         end;;
         mret (succeeded st ++ [fname], failed st)
       else
         print "Images could not be loaded.";;
         mret (succeeded st, failed st ++ [fname]))
      (λ e, mret (succeeded st, failed st ++ [fname]));
  mret (LoopState succeeded' failed' (done_count st + 1)).

Definition main_loop `{Services} (s : settings) (folders : dict string)
    (coord_df : list coord_row) (analysis_method : option analysis_method_t)
    (data_getters : dict wms_client) (total : list nat) : io loop_state :=
  for_each total
    (process_tile s folders coord_df analysis_method data_getters (length total))
    (LoopState [] [] 0).

(** "Logging outside loop": the summary and the retry file. *)
Definition log_failed (folders : dict string) (ntotal : nat) (st : loop_state)
  : io unit :=
  print (String "010" "Done! - total: " +:+ pretty ntotal +:+ " - success: "
         +:+ pretty (length (succeeded st)) +:+ " - fail: "
         +:+ pretty (length (failed st)));;
  if bool_decide (0 < length (failed st))%nat then
    let failed_df := [("filename", failed st)] in
    base ← lift (getitem folders "base");
    there ← os_path_exists (os_path_join base "failed.csv");
    if negb there then
      base ← lift (getitem folders "base");
      write_file (os_path_join base "failed.csv") (CsvFile failed_df)
    else mret ()
  else mret ().

Definition analysis_pipeline `{Services} (s : settings) (folders : dict string)
    (coord_df : list coord_row) (analysis_method : option analysis_method_t)
    (todo : option string) : io (dict string * list string * list string) :=
  data_getters ← setup_data_getters s;
  total ← select_total folders coord_df todo;
  st ← main_loop s folders coord_df analysis_method data_getters total;
  log_failed folders (length total) st;;
  mret (folders, succeeded st, failed st).

(** *** Vocabulary for the statements about the main loop *)

(** The file names of the rows that the indices [total] select. *)
Definition selected_filenames (coord_df : list coord_row) (total : list nat)
  : list string :=
  omap (λ c, filename <$> coord_df !! c) total.

(** Of the names [fnames], processed with the outcomes [oks], those with
    the outcome [ok]. *)
Definition recorded (ok : bool) (fnames : list string) (oks : list bool)
  : list string :=
  (filter (λ p, p.2 = ok) (zip fnames oks)).*1.


(** *** Vocabulary for the statements about the todo file *)

(** What the todo file at [path] yields: the entries of its column
    ['filename'], when the file is there, is a table and has the column. *)
Definition todo_column (w : world) (path : string) : option (list string) :=
  match files w !! path with
  | Some (CsvFile columns) => dict_get columns "filename"
  | _ => None
  end.

(** The entries that name a tile of the plan. *)
Definition usable_ids (coord_df : list coord_row) (col : list string)
  : list string :=
  filter (λ id, id ∈ filename <$> coord_df) col.

(** For every entry that names a tile, the index of its first row. *)
Definition todo_indices (coord_df : list coord_row) (col : list string)
  : list nat :=
  omap (λ id, head (matching_indices coord_df id)) col.

(** The lines printed for the entries that name no tile. *)
Definition not_in_coords_lines (coord_df : list coord_row) (col : list string)
  : list string :=
  (λ id, id +:+ " not in coords.")
    <$> filter (λ id, id ∉ filename <$> coord_df) col.

(** *** The other vegetation indices of geo_indices.py *)

(** An operation of an array with scalars: applied to every element. *)
Definition np_map (f : pyfloat → pyfloat) (a : matrix) : matrix :=
  map (map f) a.

(** [np.maximum] and [np.minimum] hand a NaN on. *)
Definition np_maximum (a b : pyfloat) : pyfloat :=
  match a, b with
  | NaN, _ | _, NaN => NaN
  | _, _ => if flt a b then b else a
  end.

Definition np_minimum (a b : pyfloat) : pyfloat :=
  match a, b with
  | NaN, _ | _, NaN => NaN
  | _, _ => if flt b a then b else a
  end.

(** [np.clip(a, a_min, a_max)] is [minimum(maximum(a, a_min), a_max)]. *)
Definition np_clip (a_min a_max : pyfloat) (a : pyfloat) : pyfloat :=
  np_minimum (np_maximum a a_min) a_max.

Definition calculate_evi (nir red blue : matrix) (c1 c2 l g : pyfloat)
    (clip : bool) : matrix :=
  let evi :=
    np_map (fmul g)
      (np_map2 fdiv (np_map2 fsub nir red)
         (np_map (λ v, fadd v l)
            (np_map2 fsub (np_map2 fadd nir (np_map (fmul c1) red))
               (np_map (fmul c2) blue)))) in
  if clip then np_map (np_clip (of_int (-1)) (of_int 1)) evi else evi.

Definition calculate_evi2 (nir red : matrix) (c l g : pyfloat) (clip : bool)
  : matrix :=
  let evi2 :=
    np_map (fmul g)
      (np_map2 fdiv (np_map2 fsub nir red)
         (np_map2 fadd (np_map (fadd l) nir) (np_map (fmul c) red))) in
  if clip then np_map (np_clip (of_int (-1)) (of_int 1)) evi2 else evi2.

Definition calculate_savi (nir red : matrix) (l : pyfloat) : matrix :=
  np_map2 fdiv
    (np_map (fmul (fadd (of_int 1) l)) (np_map2 fsub nir red))
    (np_map (λ v, fadd v l) (np_map2 fadd nir red)).

(** ** Example data *)

(** Services that answer: one 1 x 2 image of three channels for every
    request, one detection from the blob detector. *)
Definition demo_image : image :=
  [ [[Fin 200; Fin 100]]; [[Fin 50; Fin 100]]; [[Fin 0; Fin 0]] ].

Definition online_services : Services := {|
  wms_connect url version w := Ret (WmsClient url version);
  wms_getmap c a crs b size w := Ret demo_image;
  blob_log img kw := Ret [(Fin 0, Fin 1, Fin 3)];
|}.

(** Services whose server is unreachable when a map is requested. *)
Definition offline_services : Services := {|
  wms_connect url version w := Ret (WmsClient url version);
  wms_getmap c a crs b size w := Raise OSError;
  blob_log img kw := Ret [];
|}.

Definition demo_api : api_settings := {|
  api_use := true;
  api_servicetype := "WebMapService";
  api_url := "https://example.org/wms";
  api_version := "1.3.0";
  api_layer := "nir_layer";
  api_format := "image/png";
  api_save_format := "png";
  api_max_value := Fin 255;
|}.

Definition demo_settings (save : bool) : settings := {|
  save_wms_data_to_hard_drive := save;
  redo_if_already_processed := true;
  save_results := true;
  data_api := [("nir", demo_api)];
  data_coord_crs := "EPSG:4326";
  data_im_size_out := 256;
  data_pixel_size := Fin 1;
  data_other := [];
  minrad := Fin 1;
  maxrad := Fin 5;
  steprad := Fin 1;
  threshold_rel_blob_peaks := Fin 0;
  blob_overlap_threshold := Fin 0;
  output_file_format := "csv";
|}.

(** Caching enabled, with the layer settings repeated where
    [save_images] looks for them. *)
Definition demo_settings_cache : settings := {|
  save_wms_data_to_hard_drive := true;
  redo_if_already_processed := true;
  save_results := true;
  data_api := [("nir", demo_api)];
  data_coord_crs := "EPSG:4326";
  data_im_size_out := 256;
  data_pixel_size := Fin 1;
  data_other := [("nir", demo_api)];
  minrad := Fin 1;
  maxrad := Fin 5;
  steprad := Fin 1;
  threshold_rel_blob_peaks := Fin 0;
  blob_overlap_threshold := Fin 0;
  output_file_format := "csv";
|}.

Definition demo_folders : dict string :=
  [("root", "."); ("data", "./data"); ("base", "./data/run");
   ("results", "./data/run/results"); ("nir", "./data/run/nir")].

Definition demo_coord_df : list coord_row :=
  [CoordRow "0_0" (Fin 0) (Fin 0) (Fin 1) (Fin 1);
   CoordRow "0_1" (Fin 0) (Fin 1) (Fin 1) (Fin 2)].

Definition demo_getters : dict wms_client :=
  [("nir", WmsClient "https://example.org/wms" "1.3.0")].

Definition empty_world : world := World ∅ [] [].

(** A world in which the near-infrared raster of tile [0_0] is cached. *)
Definition cached_world : world :=
  World {[ "./data/run/nir/0_0.png" := RasterFile demo_image ]} [] [].

(** A world with a retry file naming tile [0_1] and an id not in the plan. *)
Definition todo_world : world :=
  World {[ "./data/run/failed.csv" := CsvFile [("filename", ["0_1"; "7_7"])] ]} [] [].


(** Settings for the detector alone: whether to redo a tile that has a
    result, the pixel size, the radius step and the file format. *)
Definition detector_settings (redo : bool) (pixel_size step : pyfloat)
    (format : string) : settings := {|
  save_wms_data_to_hard_drive := false;
  redo_if_already_processed := redo;
  save_results := true;
  data_api := [("nir", demo_api)];
  data_coord_crs := "EPSG:4326";
  data_im_size_out := 256;
  data_pixel_size := pixel_size;
  data_other := [];
  minrad := Fin 1;
  maxrad := Fin 5;
  steprad := step;
  threshold_rel_blob_peaks := Fin 0;
  blob_overlap_threshold := Fin 0;
  output_file_format := format;
|}.

(** A world in which tile [0_0] has a result table. *)
Definition analysed_world : world :=
  World {[ "./data/run/results/0_0.csv" := ResultFile [] ]} [] [].

(** A server that fails the first request it gets and answers every
    later one. *)
Definition flaky_services : Services := {|
  wms_connect url version w := Ret (WmsClient url version);
  wms_getmap c a crs b size w :=
    match wms_requests w with
    | [] => Raise OSError
    | _ => Ret demo_image
    end;
  blob_log img kw := Ret [(Fin 0, Fin 1, Fin 3)];
|}.

(** A world with a todo file that names tile [0_1] twice. *)
Definition repeated_todo_world : world :=
  World {[ "./data/run/failed.csv" := CsvFile [("filename", ["0_1"; "0_1"])] ]} [] [].

(** A layer whose service is not a Web Map Service. *)
Definition wcs_api : api_settings := {|
  api_use := true;
  api_servicetype := "WebCoverageService";
  api_url := "https://example.org/wcs";
  api_version := "2.0.1";
  api_layer := "dsm_layer";
  api_format := "image/tiff";
  api_save_format := "tif";
  api_max_value := Fin 255;
|}.

Definition wcs_settings : settings := {|
  save_wms_data_to_hard_drive := false;
  redo_if_already_processed := true;
  save_results := true;
  data_api := [("nir", demo_api); ("dsm", wcs_api)];
  data_coord_crs := "EPSG:4326";
  data_im_size_out := 256;
  data_pixel_size := Fin 1;
  data_other := [];
  minrad := Fin 1;
  maxrad := Fin 5;
  steprad := Fin 1;
  threshold_rel_blob_peaks := Fin 0;
  blob_overlap_threshold := Fin 0;
  output_file_format := "csv";
|}.

(** * Properties *)

(** ** The [io] monad *)

Lemma io_bind_ret {A B} (m : io A) (f : A → io B) w a w' :
  m w = (Ret a, w') → (m ≫= f) w = f a w'.
Proof. intros Hm. unfold mbind, io_bind. by rewrite Hm. Qed.

Lemma io_bind_raise {A B} (m : io A) (f : A → io B) w e w' :
  m w = (Raise e, w') → (m ≫= f) w = (Raise e, w').
Proof. intros Hm. unfold mbind, io_bind. by rewrite Hm. Qed.

Lemma try_except_raise {A} (body : io A) handler w e w' :
  body w = (Raise e, w') → try_except body handler w = handler e w'.
Proof. intros Hb. unfold try_except. by rewrite Hb. Qed.

Lemma io_bind_mret {A B} (a : A) (f : A → io B) w : (mret a ≫= f) w = f a w.
Proof. done. Qed.

Lemma io_bind_lift_Ret {A B} (a : A) (f : A → io B) w :
  (lift (Ret a) ≫= f) w = f a w.
Proof. done. Qed.

Lemma io_bind_print {B} s (f : () → io B) w :
  (print s ≫= f) w = f () (World (files w) (wms_requests w) (stdout w ++ [s])).
Proof. done. Qed.

(** Running a computation whose statements all return. *)
Ltac io_run :=
  repeat (first [rewrite io_bind_mret | rewrite io_bind_lift_Ret
                | rewrite io_bind_print];
          cbv beta iota).

Lemma io_bind_Ret_inv {A B} (m : io A) (f : A → io B) w b w' :
  (m ≫= f) w = (Ret b, w') →
  ∃ a w1, m w = (Ret a, w1) ∧ f a w1 = (Ret b, w').
Proof.
  unfold mbind, io_bind. destruct (m w) as [[a|e] w1]; [by eauto|done].
Qed.

Lemma lift_Ret_inv {A} (r : result A) w a w' :
  lift r w = (Ret a, w') → r = Ret a ∧ w' = w.
Proof. by intros [= -> ->]. Qed.

Lemma result_bind_Ret_inv {A B} (r : result A) (f : A → result B) b :
  r ≫= f = Ret b → ∃ a, r = Ret a ∧ f a = Ret b.
Proof. destruct r as [a|e]; [by eauto|done]. Qed.

(** Taking apart a run that returned, one statement at a time. *)
Ltac io_step H :=
  let a := fresh "a" in
  let w := fresh "w" in
  let Hm := fresh "Hm" in
  apply io_bind_Ret_inv in H as (a & w & Hm & H);
  try (apply lift_Ret_inv in Hm as [Hm ->]).

(** ** The tile cache: [load_data] *)

Lemma images_already_saved_loop_world folders fname apis w :
  (images_already_saved_loop folders fname apis w).2 = w.
Proof.
  induction apis as [|[k a] rest IH]; [done|]. simpl.
  destruct (api_use a); [|done].
  unfold mbind, io_bind, lift. destruct (getitem folders k); [|done].
  unfold os_path_exists. by case_bool_decide.
Qed.

Lemma images_already_saved_world folders fname s w :
  (images_already_saved folders fname s w).2 = w.
Proof. apply images_already_saved_loop_world. Qed.

(** C1 (the code departs from the claim).  With disk caching enabled and
    every enabled layer cached, [load_data] reads the cache, the read
    raises, and the function returns the empty raster set with status
    ['retry']: the world is unchanged, so no request is sent to any
    raster service. *)
Theorem load_data_cache_read_error_no_fetch `{Services} folders s fname b wmses w :
  save_wms_data_to_hard_drive s = true →
  (images_already_saved folders fname s w).1 = Ret true →
  load_data folders s fname b wmses w = (Ret ([], "retry"), w).
Proof.
  intros Hsave Hcached. unfold load_data. rewrite Hsave.
  pose proof (images_already_saved_world folders fname s w) as Hw.
  destruct (images_already_saved folders fname s w) as [r w0] eqn:Hc.
  simpl in *. subst r w0.
  erewrite io_bind_ret by exact Hc. simpl.
  by erewrite try_except_raise by reflexivity.
Qed.

Lemma load_data_cache_read_error_no_fetch_witness :
  load_data (H := online_services) demo_folders (demo_settings true) "0_0"
    (Fin 0, Fin 0, Fin 1, Fin 1) demo_getters
    cached_world
  = (Ret ([], "retry"), cached_world).
Proof.
  apply (load_data_cache_read_error_no_fetch (H := online_services)).
  - reflexivity.
  - vm_compute. reflexivity.
Defined.

(** C3.  When the cache is not used for the tile and the fetch from the
    raster services raises, [load_data] returns the empty raster set
    with status ['load_fail']; it does not raise. *)
Theorem load_data_fetch_failure `{Services} folders s fname b wmses w e w1 :
  (save_wms_data_to_hard_drive s = false
   ∨ (images_already_saved folders fname s w).1 = Ret false) →
  get_images_from_wms_service wmses s b w = (Raise e, w1) →
  load_data folders s fname b wmses w = (Ret ([], "load_fail"), w1).
Proof.
  intros Hbranch Hfetch. unfold load_data.
  assert ((if save_wms_data_to_hard_drive s
           then images_already_saved folders fname s else mret false) w
          = (Ret false, w)) as Hc.
  { destruct Hbranch as [->|Hno]; [done|].
    destruct (save_wms_data_to_hard_drive s); [|done].
    pose proof (images_already_saved_world folders fname s w) as Hw.
    destruct (images_already_saved folders fname s w) as [r w0].
    simpl in *. by subst. }
  erewrite io_bind_ret by exact Hc. simpl.
  erewrite try_except_raise; [done|].
  by erewrite io_bind_raise by exact Hfetch.
Qed.

Lemma load_data_fetch_failure_witness :
  load_data (H := offline_services) demo_folders (demo_settings false) "0_0"
    (Fin 0, Fin 0, Fin 1, Fin 1) demo_getters
    empty_world
  = (Ret ([], "load_fail"),
     World ∅ [("nir_layer", (Fin 0, Fin 0, Fin 1, Fin 1))]
       ["Fetching images from wms services"]).
Proof.
  apply (load_data_fetch_failure (H := offline_services)) with (e := OSError).
  - left. reflexivity.
  - reflexivity.
Defined.

(** ** The main loop of [analysis_pipeline] *)

Section main_loop.
Context `{Services}.
Variables (s : settings) (folders : dict string) (coord_df : list coord_row).
Variables (analysis_method : option analysis_method_t).
Variables (data_getters : dict wms_client).

Local Abbreviation body :=
  (process_tile s folders coord_df analysis_method data_getters).

(** Every iteration returns, with the tile's name appended to exactly
    one of the two lists. *)
Lemma process_tile_outcome n st c row w :
  coord_df !! c = Some row →
  ∃ (ok : bool) w',
    body n st c w
    = (Ret (LoopState (succeeded st ++ (if ok then [filename row] else []))
                      (failed st ++ (if ok then [] else [filename row]))
                      (done_count st + 1)), w').
Proof.
  intros Hrow. unfold process_tile, iloc. rewrite Hrow.
  unfold mbind at 1, io_bind at 1, print at 1.
  unfold mbind at 1, io_bind at 1, lift at 1.
  unfold mbind at 1, io_bind at 1, try_except at 1.
  set (w0 := World _ _ _).
  unfold mbind at 1, io_bind at 1.
  destruct (load_data _ _ _ _ _ w0) as [[[images status]|e] w1]; simpl.
  - case_bool_decide.
    + unfold mbind at 1, io_bind at 1.
      destruct analysis_method as [analyse|] eqn:Hmethod.
      * destruct (analyse images folders s (filename row) _ w1)
          as [[r|e] w2]; simpl.
        -- exists true, w2. by rewrite !app_nil_r.
        -- exists false, w2. by rewrite !app_nil_r.
      * exists true, w1. simpl. by rewrite !app_nil_r.
    + exists false. eexists. by rewrite !app_nil_r.
  - exists false, w1. by rewrite !app_nil_r.
Qed.


Lemma recorded_cons ok f fnames o oks :
  recorded ok (f :: fnames) (o :: oks)
  = (if decide (o = ok) then [f] else []) ++ recorded ok fnames oks.
Proof.
  unfold recorded. simpl. rewrite filter_cons. simpl.
  by destruct (decide (o = ok)).
Qed.

Lemma recorded_length fnames oks :
  length fnames = length oks →
  length (recorded true fnames oks) + length (recorded false fnames oks)
  = length fnames.
Proof.
  revert oks. induction fnames as [|f fnames IH]; intros [|o oks] Hlen;
    try done.
  rewrite !recorded_cons, !length_app. simpl in Hlen.
  specialize (IH oks ltac:(lia)). destruct o; simpl; lia.
Qed.

Lemma selected_filenames_length total :
  Forall (λ c, c < length coord_df) total →
  length (selected_filenames coord_df total) = length total.
Proof.
  induction 1 as [|c total Hc _ IH]; [done|].
  destruct (lookup_lt_is_Some_2 coord_df c Hc) as [row Hrow].
  unfold selected_filenames in *. cbn [omap list_omap].
  rewrite Hrow. simpl. by f_equal.
Qed.

(** The loop from any state: it returns, and the outcomes [oks] of the
    iterations say which list each name went to. *)
Lemma for_each_process_tile n total st w :
  Forall (λ c, c < length coord_df) total →
  ∃ (oks : list bool) w',
    length oks = length total
    ∧ for_each total (body n) st w
      = (Ret (LoopState
                (succeeded st ++ recorded true (selected_filenames coord_df total) oks)
                (failed st ++ recorded false (selected_filenames coord_df total) oks)
                (done_count st + length total)), w').
Proof.
  intros Hin. revert st w.
  induction Hin as [|c total Hc _ IH]; intros st w.
  - exists [], w. split; [done|]. simpl. unfold recorded. simpl.
    rewrite !app_nil_r, Nat.add_0_r. by destruct st.
  - destruct (lookup_lt_is_Some_2 coord_df c Hc) as [row Hrow].
    destruct (process_tile_outcome n st c row w Hrow) as (ok & w1 & Hstep).
    simpl. erewrite io_bind_ret by exact Hstep.
    destruct (IH (LoopState (succeeded st ++ (if ok then [filename row] else []))
                            (failed st ++ (if ok then [] else [filename row]))
                            (done_count st + 1)) w1)
      as (oks & w' & Hlen & Hrest).
    exists (ok :: oks), w'. split; [simpl; lia|].
    cbn [succeeded failed done_count] in Hrest.
    rewrite Hrest. unfold selected_filenames. cbn [omap list_omap].
    rewrite Hrow. simpl. rewrite !recorded_cons, <- !app_assoc.
    replace (done_count st + 1 + length total)
      with (done_count st + S (length total)) by lia.
    by destruct ok.
Qed.
End main_loop.

Lemma recorded_subseteq ok fnames oks f :
  f ∈ recorded ok fnames oks → f ∈ fnames.
Proof.
  revert oks. induction fnames as [|g fnames IH]; intros [|o oks];
    try (unfold recorded; simpl; by intros ?%elem_of_nil).
  rewrite recorded_cons. intros [Hf|Hf]%elem_of_app.
  - destruct (decide (o = ok)); [|by apply elem_of_nil in Hf].
    apply list_elem_of_singleton in Hf as ->. by left.
  - right. by eapply IH.
Qed.

Lemma recorded_disjoint fnames oks f :
  NoDup fnames → f ∈ recorded true fnames oks → f ∉ recorded false fnames oks.
Proof.
  intros Hnd. revert oks.
  induction Hnd as [|g fnames Hg Hnd IH]; intros [|o oks];
    try (unfold recorded; simpl; by intros ?%elem_of_nil).
  rewrite !recorded_cons.
  intros [Hf|Hf]%elem_of_app [Hf'|Hf']%elem_of_app.
  - destruct o; simpl in *;
      [by apply elem_of_nil in Hf'|by apply elem_of_nil in Hf].
  - destruct (decide (o = true)); [|by apply elem_of_nil in Hf].
    apply list_elem_of_singleton in Hf as ->.
    by apply recorded_subseteq in Hf'.
  - destruct (decide (o = false)); [|by apply elem_of_nil in Hf'].
    apply list_elem_of_singleton in Hf' as ->.
    by apply recorded_subseteq in Hf.
  - by eapply IH.
Qed.


(** C10, as the code has it.  Every iteration of the main loop appends
    the name of its tile to exactly one of [succeeded] and [failed]; so
    the loop returns with the names of the selected tiles split over
    the two lists by the outcomes of the iterations, and their lengths
    add up to the number of selected tiles.  No name is in both lists
    when the selected tiles are distinct: a selection that names a tile
    twice has it processed twice, each time with an outcome of its
    own. *)
Theorem main_loop_records_each_tile_once `{Services} s folders coord_df
    analysis_method data_getters :
  (∀ n st c row w,
     coord_df !! c = Some row →
     ∃ st' w',
       process_tile s folders coord_df analysis_method data_getters n st c w
         = (Ret st', w')
       ∧ ((succeeded st' = succeeded st ++ [filename row]
           ∧ failed st' = failed st)
          ∨ (succeeded st' = succeeded st
             ∧ failed st' = failed st ++ [filename row])))
  ∧ (∀ total w,
       Forall (λ c, c < length coord_df) total →
       ∃ st w' (oks : list bool),
         main_loop s folders coord_df analysis_method data_getters total w
           = (Ret st, w')
         ∧ length oks = length total
         ∧ succeeded st = recorded true (selected_filenames coord_df total) oks
         ∧ failed st = recorded false (selected_filenames coord_df total) oks
         ∧ length (succeeded st) + length (failed st) = length total
         ∧ (NoDup (selected_filenames coord_df total) →
            ∀ f, f ∈ succeeded st → f ∉ failed st)).
Proof.
  split.
  - intros n st c row w Hrow.
    destruct (process_tile_outcome s folders coord_df analysis_method
                data_getters n st c row w Hrow) as (ok & w' & Hstep).
    eexists _, w'. split; [exact Hstep|]. simpl.
    destruct ok; rewrite !app_nil_r; auto.
  - intros total w Hin. unfold main_loop.
    destruct (for_each_process_tile s folders coord_df analysis_method
                data_getters (length total) total (LoopState [] [] 0) w Hin)
      as (oks & w' & Hlen & Hloop).
    eexists _, w', oks. split; [exact Hloop|]. simpl.
    pose proof (selected_filenames_length coord_df total Hin) as Hsel.
    split_and!; try done.
    + rewrite recorded_length; lia.
    + intros Hnd f. by apply recorded_disjoint.
Qed.


Lemma main_loop_records_each_tile_once_witness :
  (∃ st' w',
     process_tile (H := offline_services) (demo_settings false) demo_folders
       demo_coord_df None demo_getters 2 (LoopState ["0_0"] [] 1) 1 empty_world
     = (Ret st', w')
     ∧ ((succeeded st' = ["0_0"] ++ ["0_1"] ∧ failed st' = [])
        ∨ (succeeded st' = ["0_0"] ∧ failed st' = [] ++ ["0_1"])))
  ∧ (∃ st w' (oks : list bool),
       main_loop (H := offline_services) (demo_settings false) demo_folders
         demo_coord_df None demo_getters [0; 1] empty_world
       = (Ret st, w')
       ∧ length oks = 2
       ∧ succeeded st = recorded true ["0_0"; "0_1"] oks
       ∧ failed st = recorded false ["0_0"; "0_1"] oks
       ∧ length (succeeded st) + length (failed st) = 2
       ∧ (NoDup ["0_0"; "0_1"] → ∀ f, f ∈ succeeded st → f ∉ failed st)).
Proof.
  destruct (main_loop_records_each_tile_once (H := offline_services)
              (demo_settings false) demo_folders demo_coord_df
              None demo_getters) as (Hstep & Hloop).
  split.
  - apply (Hstep 2 (LoopState ["0_0"] [] 1) 1
             (CoordRow "0_1" (Fin 0) (Fin 1) (Fin 1) (Fin 2)) empty_world).
    reflexivity.
  - apply (Hloop [0; 1] empty_world). repeat constructor.
Defined.

(** C10, as the claim states it, fails: the two lists need not be
    disjoint.  The todo file names tile [0_1] twice and the server fails
    the first request only, so the tile is processed twice, fails, then
    succeeds, and its name is in both lists. *)
Lemma main_loop_records_a_tile_twice :
  ∃ st w w',
    main_loop (H := flaky_services) (demo_settings false) demo_folders
      demo_coord_df None demo_getters [1; 1]%nat repeated_todo_world
    = (Ret st, w)
    ∧ succeeded st = ["0_1"] ∧ failed st = ["0_1"]
    ∧ analysis_pipeline (H := flaky_services) (demo_settings false)
        demo_folders demo_coord_df None (Some "failed") repeated_todo_world
      = (Ret (demo_folders, ["0_1"], ["0_1"]), w')
    ∧ "0_1" ∈ succeeded st ∧ "0_1" ∈ failed st.
Proof.
  eexists _, _, _. split_and!; [reflexivity..| |];
    apply elem_of_cons; by left.
Qed.

(** ** The todo file: [get_todo_filenames] and the working subset *)

Lemma matching_indices_spec coord_df id i :
  i ∈ matching_indices coord_df id
  ↔ ∃ row, coord_df !! i = Some row ∧ filename row = id.
Proof.
  unfold matching_indices. rewrite list_elem_of_fmap. split.
  - intros ([j row] & -> & [Hid Hin]%list_elem_of_filter).
    apply elem_of_lookup_imap in Hin as (k & r & [= -> ->] & Hk). eauto.
  - intros (row & Hrow & Hid). exists (i, row). split; [done|].
    apply list_elem_of_filter. split; [done|].
    by apply (elem_of_lookup_imap_2 (λ i r, (i, r))).
Qed.

Lemma matching_indices_head coord_df id :
  id ∈ filename <$> coord_df →
  ∃ i rest, matching_indices coord_df id = i :: rest.
Proof.
  intros (row & -> & [i Hi]%list_elem_of_lookup)%list_elem_of_fmap.
  assert (i ∈ matching_indices coord_df (filename row)) as Hin
    by (apply matching_indices_spec; eauto).
  destruct (matching_indices coord_df (filename row)) as [|j rest]; [|eauto].
  by apply elem_of_nil in Hin.
Qed.

Lemma matching_indices_None coord_df id :
  id ∉ filename <$> coord_df → matching_indices coord_df id = [].
Proof.
  intros Hno. destruct (matching_indices coord_df id) as [|i rest] eqn:E; [done|].
  assert (i ∈ matching_indices coord_df id) as Hin by (rewrite E; left).
  apply matching_indices_spec in Hin as (row & Hrow & <-).
  destruct Hno. apply list_elem_of_fmap. exists row. split; [done|].
  by eapply list_elem_of_lookup_2.
Qed.

Lemma todo_indices_cons coord_df id col :
  todo_indices coord_df (id :: col)
  = (if bool_decide (id ∈ filename <$> coord_df)
     then option_list (head (matching_indices coord_df id)) else [])
    ++ todo_indices coord_df col.
Proof.
  unfold todo_indices. cbn [omap list_omap]. case_bool_decide as Hin.
  - destruct (matching_indices_head _ _ Hin) as (i & rest & ->). done.
  - by rewrite matching_indices_None.
Qed.

(** The entries that name a tile give an index; the others give none. *)
Lemma todo_indices_nil coord_df col :
  todo_indices coord_df col = [] ↔ usable_ids coord_df col = [].
Proof.
  induction col as [|id col IH]; [done|].
  rewrite todo_indices_cons. unfold usable_ids in *. rewrite filter_cons.
  case_bool_decide as Hin.
  - rewrite decide_True by done.
    destruct (matching_indices_head _ _ Hin) as (i & rest & ->). done.
  - rewrite decide_False by done. done.
Qed.

(** With distinct file names in the plan, the indices are those of the
    rows that the todo file names. *)
Lemma todo_indices_spec coord_df col c :
  NoDup (filename <$> coord_df) →
  c ∈ todo_indices coord_df col
  ↔ ∃ row, coord_df !! c = Some row ∧ filename row ∈ col.
Proof.
  intros Hnd. unfold todo_indices. rewrite list_elem_of_omap. split.
  - intros (id & Hid & Hhead).
    apply head_Some_elem_of, matching_indices_spec in Hhead
      as (row & Hrow & <-). eauto.
  - intros (row & Hrow & Hin). exists (filename row). split; [done|].
    destruct (matching_indices_head coord_df (filename row))
      as (i & rest & Hm).
    { apply list_elem_of_fmap. exists row. split; [done|].
      by eapply list_elem_of_lookup_2. }
    rewrite Hm. simpl. f_equal.
    assert (i ∈ matching_indices coord_df (filename row)) as Hi
      by (rewrite Hm; left).
    apply matching_indices_spec in Hi as (row' & Hrow' & Hsame).
    eapply (NoDup_lookup _ _ _ _ Hnd); rewrite list_lookup_fmap.
    + by rewrite Hrow'; simpl; rewrite Hsame.
    + by rewrite Hrow.
Qed.

Lemma todo_indices_in_range coord_df col :
  Forall (λ c, c < length coord_df) (todo_indices coord_df col).
Proof.
  apply Forall_forall. intros c (id & _ & Hhead)%list_elem_of_omap.
  apply head_Some_elem_of, matching_indices_spec in Hhead as (row & Hrow & _).
  by eapply lookup_lt_Some.
Qed.

(** The loop of [get_todo_filenames] returns, and only prints. *)
Lemma get_todo_filenames_loop coord_df col acc w :
  ∃ w',
    for_each col (λ indices try_el,
      if bool_decide (try_el ∈ filename <$> coord_df) then
        match matching_indices coord_df try_el with
        | ind :: _ => mret (indices ++ [ind])
        | [] => lift (Raise IndexError)
        end
      else
        print (try_el +:+ " not in coords.");;
        mret indices) acc w
    = (Ret (acc ++ todo_indices coord_df col), w')
    ∧ files w' = files w ∧ wms_requests w' = wms_requests w
    ∧ stdout w' = stdout w ++ not_in_coords_lines coord_df col.
Proof.
  revert acc w. induction col as [|id col IH]; intros acc w.
  - exists w. simpl. unfold not_in_coords_lines. simpl. by rewrite !app_nil_r.
  - cbn [for_each]. rewrite todo_indices_cons.
    unfold not_in_coords_lines. rewrite filter_cons.
    case_bool_decide as Hin.
    + destruct (matching_indices_head _ _ Hin) as (i & rest & ->).
      unfold mbind at 1, io_bind at 1. simpl.
      destruct (IH (acc ++ [i]) w) as (w' & -> & ? & ? & ?).
      exists w'. rewrite <- app_assoc. rewrite decide_False by auto.
      by split_and!.
    + unfold mbind at 1, io_bind at 1. simpl.
      destruct (IH acc (World (files w) (wms_requests w)
                          (stdout w ++ [id +:+ " not in coords."])))
        as (w' & -> & ? & ? & Hout).
      exists w'. rewrite decide_True by done. split_and!; [done..|].
      rewrite Hout. simpl. by rewrite <- app_assoc.
Qed.

(** [get_todo_filenames] never raises: it gives the indices when the
    file yields a column with entries, and [None] otherwise. *)
Lemma get_todo_filenames_spec coord_df path w :
  ∃ w',
    get_todo_filenames coord_df path w
    = (Ret (match todo_column w path with
            | Some (id :: col) => Some (todo_indices coord_df (id :: col))
            | _ => None
            end), w')
    ∧ files w' = files w ∧ wms_requests w' = wms_requests w
    ∧ match todo_column w path with
      | Some (id :: col) =>
          stdout w' = stdout w ++ not_in_coords_lines coord_df (id :: col)
      | _ => True
      end.
Proof.
  unfold get_todo_filenames, try_except, todo_column.
  unfold mbind at 1, io_bind at 1, os_path_exists at 1.
  destruct (files w !! path) as [f|] eqn:Hf.
  - rewrite bool_decide_eq_true_2 by eauto.
    unfold mbind at 1, io_bind at 1, pd_read_csv at 1. rewrite Hf.
    destruct f as [columns| | |]; try (eexists; by split_and!).
    destruct (dict_get columns "filename") as [[|id col]|];
      try (eexists; by split_and!).
    unfold mbind at 1, io_bind at 1.
    destruct (get_todo_filenames_loop coord_df (id :: col) [] w)
      as (w' & -> & ? & ? & ?).
    exists w'. by split_and!.
  - rewrite bool_decide_eq_false_2 by (by intros [? ?]).
    exists w. by split_and!.
Qed.

(** C7.  With a todo file given, the working list [total] holds exactly
    the indices of the rows of the plan that the column ['filename'] of
    the file names; an entry that names no row is reported on the
    console and passed over.  When the file is missing, cannot be read
    as a table, has no such column, or names no row of the plan,
    [total] is the full range of rows.  The selection returns and
    changes no file. *)
Theorem select_total_todo folders coord_df t w base :
  getitem folders "base" = Ret base →
  NoDup (filename <$> coord_df) →
  ∃ total w',
    select_total folders coord_df (Some t) w = (Ret total, w')
    ∧ files w' = files w
    ∧ match todo_column w (os_path_join base (t +:+ ".csv")) with
      | Some (id :: col) =>
          stdout w'
          = stdout w ++ ["using todo file: " +:+ t]
              ++ not_in_coords_lines coord_df (id :: col)
          ∧ if decide (usable_ids coord_df (id :: col) = []) then
              total = seq 0 (length coord_df)
            else
              ∀ c, c ∈ total
                   ↔ ∃ row, coord_df !! c = Some row
                            ∧ filename row ∈ id :: col
      | _ => total = seq 0 (length coord_df)
      end.
Proof.
  intros Hbase Hnd. unfold select_total. rewrite Hbase.
  unfold mbind at 1, io_bind at 1, lift at 1.
  unfold mbind at 1, io_bind at 1, print at 1.
  set (w0 := World _ _ _).
  unfold mbind at 1, io_bind at 1.
  destruct (get_todo_filenames_spec coord_df
              (os_path_join base (t +:+ ".csv")) w0)
    as (w' & -> & Hfiles & _ & Hout).
  assert (todo_column w0 (os_path_join base (t +:+ ".csv"))
          = todo_column w (os_path_join base (t +:+ ".csv"))) as Hcol by done.
  rewrite Hcol in Hout |- *.
  destruct (todo_column w _) as [[|id col]|].
  - eexists _, w'. by split_and!.
  - assert (stdout w'
            = stdout w ++ ["using todo file: " +:+ t]
                ++ not_in_coords_lines coord_df (id :: col)) as Hout'.
    { rewrite Hout. subst w0. simpl. by rewrite <- app_assoc. }
    destruct (decide (usable_ids coord_df (id :: col) = [])) as [Hno|Hsome].
    + apply todo_indices_nil in Hno. rewrite Hno.
      eexists _, w'. by split_and!.
    + destruct (todo_indices coord_df (id :: col)) as [|c l] eqn:Hidx.
      { by apply todo_indices_nil in Hidx. }
      eexists _, w'. split_and!; [done..|].
      intros c'. rewrite <- Hidx. by apply todo_indices_spec.
  - eexists _, w'. by split_and!.
Qed.

Lemma select_total_todo_witness :
  ∃ total w',
    select_total demo_folders demo_coord_df (Some "failed") todo_world
    = (Ret total, w')
    ∧ files w' = files todo_world
    ∧ match todo_column todo_world (os_path_join "./data/run" ("failed" +:+ ".csv")) with
      | Some (id :: col) =>
          stdout w'
          = stdout todo_world ++ ["using todo file: " +:+ "failed"]
              ++ not_in_coords_lines demo_coord_df (id :: col)
          ∧ if decide (usable_ids demo_coord_df (id :: col) = []) then
              total = seq 0 (length demo_coord_df)
            else
              ∀ c, c ∈ total
                   ↔ ∃ row, demo_coord_df !! c = Some row
                            ∧ filename row ∈ id :: col
      | _ => total = seq 0 (length demo_coord_df)
      end.
Proof.
  apply (select_total_todo demo_folders demo_coord_df "failed" todo_world
           "./data/run").
  - reflexivity.
  - apply (bool_decide_unpack _). vm_compute. exact I.
Defined.

(** The run on the example: tile [0_1] alone is selected, and the entry
    [7_7], which names no tile, is reported and passed over. *)
Example select_total_todo_example :
  select_total demo_folders demo_coord_df (Some "failed") todo_world
  = (Ret [1],
     World (files todo_world) []
       ["using todo file: failed"; "7_7 not in coords."]).
Proof. vm_compute. reflexivity. Qed.

(** The working list is always within the plan. *)
Lemma select_total_in_range folders coord_df todo w total w' :
  select_total folders coord_df todo w = (Ret total, w') →
  Forall (λ c, c < length coord_df) total.
Proof.
  assert (Forall (λ c, c < length coord_df) (seq 0 (length coord_df))) as Hfull.
  { apply Forall_forall. intros c ?%elem_of_seq. lia. }
  unfold select_total. destruct todo as [t|]; [|by intros [= <- _]].
  unfold mbind at 1, io_bind at 1, lift at 1.
  destruct (getitem folders "base") as [base|]; [|done].
  unfold mbind at 1, io_bind at 1, print at 1.
  set (w0 := World _ _ _).
  unfold mbind at 1, io_bind at 1.
  destruct (get_todo_filenames_spec coord_df
              (os_path_join base (t +:+ ".csv")) w0) as (w1 & -> & _).
  destruct (todo_column w0 _) as [[|id col]|]; try by intros [= <- _].
  pose proof (todo_indices_in_range coord_df (id :: col)) as Hin.
  destruct (todo_indices coord_df (id :: col)); by intros [= <- _].
Qed.

(** ** The retry file *)

(** C8.  After the main loop the list of failed names is written to
    [failed.csv] exactly when it is not empty and no file is at that
    path: a file that is there is left as it is, and with no failure no
    file is written. *)
Theorem log_failed_writes_retry_file folders ntotal st w base :
  getitem folders "base" = Ret base →
  ∃ w',
    log_failed folders ntotal st w = (Ret (), w')
    ∧ wms_requests w' = wms_requests w
    ∧ files w'
      = if bool_decide (failed st ≠ [])
           && negb (bool_decide (is_Some (files w !! os_path_join base "failed.csv")))
        then <[os_path_join base "failed.csv" := CsvFile [("filename", failed st)]]>
               (files w)
        else files w.
Proof.
  intros Hbase. unfold log_failed.
  unfold mbind at 1, io_bind at 1, print at 1.
  destruct (failed st) as [|f fs] eqn:Hfailed.
  - rewrite bool_decide_eq_false_2 by (simpl; lia).
    rewrite bool_decide_eq_false_2 by (by intros []).
    eexists. by split_and!.
  - rewrite bool_decide_eq_true_2 by (simpl; lia).
    rewrite (bool_decide_eq_true_2 (f :: fs ≠ [])) by done.
    rewrite Hbase.
    unfold mbind at 1, io_bind at 1, lift at 1.
    unfold mbind at 1, io_bind at 1, os_path_exists at 1. simpl.
    destruct (bool_decide _); simpl; eexists; by split_and!.
Qed.

Lemma log_failed_writes_retry_file_witness :
  ∃ w',
    log_failed demo_folders 2 (LoopState ["0_0"] ["0_1"] 2) empty_world
    = (Ret (), w')
    ∧ wms_requests w' = wms_requests empty_world
    ∧ files w'
      = if bool_decide (["0_1"] ≠ [])
           && negb (bool_decide (is_Some (files empty_world
                                            !! os_path_join "./data/run" "failed.csv")))
        then <[os_path_join "./data/run" "failed.csv" := CsvFile [("filename", ["0_1"])]]>
               (files empty_world)
        else files empty_world.
Proof.
  apply (log_failed_writes_retry_file demo_folders 2
           (LoopState ["0_0"] ["0_1"] 2) empty_world "./data/run").
  reflexivity.
Defined.

(** An earlier retry file stays as it is. *)
Example log_failed_keeps_existing_file :
  (log_failed demo_folders 2 (LoopState ["0_0"] ["0_1"] 2) todo_world).2
  = World (files todo_world) []
      [String "010" "Done! - total: 2 - success: 1 - fail: 1"].
Proof. vm_compute. reflexivity. Qed.

(** ** Arithmetic on finite values *)

Local Open Scope R_scope.

Lemma fdiv_fin x y : y ≠ 0 → fdiv (Fin x) (Fin y) = Fin (x / y).
Proof. intros Hy. unfold fdiv. by rewrite decide_False. Qed.

Lemma float_overflow_large : 1000000000 < float_overflow.
Proof. unfold float_overflow. apply IZR_lt. by vm_compute. Qed.

Lemma overflow_fin x : Rabs x < float_overflow → overflow (Fin x) = Fin x.
Proof.
  intros Hx. unfold overflow. apply Rabs_def2 in Hx as [Hhi Hlo].
  rewrite !decide_False by lra. done.
Qed.


Lemma py_div_fin x y :
  y ≠ 0 → Rabs (x / y) < float_overflow →
  py_div (Fin x) (Fin y) = Ret (Fin (x / y)).
Proof.
  intros Hy Hq. unfold py_div.
  by rewrite decide_False, fdiv_fin, overflow_fin.
Qed.

Lemma py_div_zero a : py_div a (Fin 0) = Raise ZeroDivisionError.
Proof. unfold py_div. by rewrite decide_True. Qed.

Lemma py_div_nonzero a y :
  y ≠ 0 → py_div a (Fin y) = Ret (overflow (fdiv a (Fin y))).
Proof. intros Hy. unfold py_div. by rewrite decide_False. Qed.

Lemma math_sqrt_fin a : 0 <= a → math_sqrt (Fin a) = Ret (Fin (sqrt a)).
Proof. intros Ha. unfold math_sqrt. rewrite decide_False; [done|lra]. Qed.

Lemma math_asin_fin `{L : Libm} q :
  -1 <= q <= 1 → math_asin (Fin q) = Ret (Fin (libm_asin q)).
Proof. intros [? ?]. unfold math_asin. by rewrite !decide_True. Qed.

Lemma Zceil_IZR z : Zceil (IZR z) = z.
Proof. apply Zceil_eq. lra. Qed.

Lemma Zceil_pos x : 0 < x → (1 <= Zceil x)%Z.
Proof.
  intros Hx. pose proof (Zceil_bound x) as [_ Hup].
  assert (0 < IZR (Zceil x)) as Hpos by lra.
  apply lt_IZR in Hpos. lia.
Qed.

(** [int(np.ceil(x))] of a finite [x]. *)
Lemma py_int_ceil x : py_int (np_ceil (Fin x)) = Ret (Zceil x).
Proof.
  unfold np_ceil, py_int. f_equal.
  destruct (decide _); [apply ZfloorZ|apply Zceil_IZR].
Qed.

Lemma sqr_bound x : -1 <= x <= 1 → 0 <= x * x <= 1.
Proof. intros. nra. Qed.

Lemma mul_bound x y : 0 <= x <= 1 → 0 <= y <= 1 → 0 <= x * y <= 1.
Proof. intros. nra. Qed.

Lemma div_nonneg x y : 0 <= x → 0 < y → 0 <= x / y.
Proof.
  intros Hx Hy. unfold Rdiv. apply Rmult_le_pos; [done|].
  by left; apply Rinv_0_lt_compat.
Qed.

(** ** The haversine distance *)

(** On finite points [haversine] computes [a] and then fails or
    returns as the square root and the arcsine decide. *)
Lemma haversine_finite `{L : Libm} lon1 lat1 lon2 lat2 :
  haversine (Fin lon1) (Fin lat1) (Fin lon2) (Fin lat2)
  = q ← math_sqrt (Fin (haversine_a lon1 lat1 lon2 lat2));
    t ← math_asin q;
    Ret (fmul (fmul (fmul (of_int 2) t) (of_int 6371)) (of_int 1000)).
Proof.
  unfold haversine, haversine_a, math_radians, of_int.
  cbn [fmul fsub fadd fneg]. rewrite !fdiv_fin by lra.
  cbn [math_sin math_cos]. unfold mbind, result_bind.
  cbn [fmul fadd]. done.
Qed.

(** With [a] within [0, 1] the distance is finite. *)
Lemma haversine_fin `{L : Libm} lon1 lat1 lon2 lat2 :
  0 <= haversine_a lon1 lat1 lon2 lat2 <= 1 →
  haversine (Fin lon1) (Fin lat1) (Fin lon2) (Fin lat2)
  = Ret (Fin (2 * libm_asin (sqrt (haversine_a lon1 lat1 lon2 lat2))
              * 6371 * 1000)).
Proof.
  intros [Ha0 Ha1]. rewrite haversine_finite.
  set (a := haversine_a _ _ _ _) in *.
  assert (0 <= sqrt a <= 1) as Hq.
  { split; [apply sqrt_pos|]. rewrite <- sqrt_1. by apply sqrt_le_1_alt. }
  rewrite math_sqrt_fin by done. cbn [mbind result_bind].
  rewrite math_asin_fin by lra. done.
Qed.

(** Width: both points on one latitude.  Height: on one longitude. *)
Lemma haversine_a_same_lat `{L : Libm} lon1 lat lon2 :
  0 <= haversine_a lon1 lat lon2 lat <= 1.
Proof.
  unfold haversine_a.
  replace ((lat * (PI / 180) + - (lat * (PI / 180))) / 2) with 0 by lra.
  rewrite libm_sin_0.
  pose proof (sqr_bound _ (libm_cos_bound (lat * (PI / 180)))).
  pose proof (sqr_bound _
    (libm_sin_bound ((lon2 * (PI / 180) + - (lon1 * (PI / 180))) / 2))).
  pose proof (mul_bound _ _ H H0). lra.
Qed.


Lemma haversine_same_lat `{L : Libm} lon1 lat lon2 :
  ∃ d, haversine (Fin lon1) (Fin lat) (Fin lon2) (Fin lat) = Ret (Fin d).
Proof. eexists. apply haversine_fin, haversine_a_same_lat. Qed.


(** *** With the functions of real analysis *)

Lemma haversine_a_core u x y :
  0 <= sin x * sin x + cos (u - x) * cos (u + x) * (sin y * sin y) <= 1.
Proof.
  rewrite cos_minus, cos_plus.
  pose proof (sin2_cos2 u) as Hu. pose proof (sin2_cos2 x) as Hx.
  unfold Rsqr in Hu, Hx.
  pose proof (sqr_bound _ (SIN_bound y)) as Hs.
  pose proof (sqr_bound _ (SIN_bound x)) as Hsx.
  pose proof (sqr_bound _ (COS_bound u)) as Hcu.
  assert (cos x * cos x = 1 - sin x * sin x) as Hc by lra.
  assert (sin u * sin u = 1 - cos u * cos u) as Hsu by lra.
  assert (sin x * sin x
          + (cos u * cos x + sin u * sin x) * (cos u * cos x - sin u * sin x)
            * (sin y * sin y)
          = sin x * sin x * (1 - sin y * sin y) + cos u * cos u * (sin y * sin y))
    as ->.
  { transitivity (sin x * sin x
                  + (cos u * cos u * (cos x * cos x)
                     - sin u * sin u * (sin x * sin x)) * (sin y * sin y));
      [ring|]. rewrite Hc, Hsu. ring. }
  nra.
Qed.

Lemma haversine_a_real lon1 lat1 lon2 lat2 :
  0 <= haversine_a (L := real_libm) lon1 lat1 lon2 lat2 <= 1.
Proof.
  unfold haversine_a. cbn [libm_sin libm_cos real_libm].
  set (phi1 := lat1 * (PI / 180)). set (phi2 := lat2 * (PI / 180)).
  set (y := (lon2 * (PI / 180) + - (lon1 * (PI / 180))) / 2).
  pose proof (haversine_a_core ((phi1 + phi2) / 2) ((phi2 + - phi1) / 2) y) as H.
  replace ((phi1 + phi2) / 2 - (phi2 + - phi1) / 2) with phi1 in H by lra.
  replace ((phi1 + phi2) / 2 + (phi2 + - phi1) / 2) with phi2 in H by lra.
  exact H.
Qed.

(** The arc of [x] radians, [0 <= x <= pi / 2], from the sine of [x]. *)
Lemma asin_sqrt_sin_sqr x :
  0 <= x <= PI / 2 → asin (sqrt (sin x * sin x)) = x.
Proof.
  intros [Hx0 Hx1]. pose proof PI_RGT_0.
  rewrite sqrt_square by (apply sin_ge_0; lra).
  apply asin_sin; lra.
Qed.

(** The distance along a meridian is the arc: for two points of one
    longitude, at most 180 degrees of latitude apart. *)
Lemma haversine_meridian lon lat1 lat2 :
  0 <= lat2 - lat1 <= 180 →
  haversine (L := real_libm) (Fin lon) (Fin lat1) (Fin lon) (Fin lat2)
  = Ret (Fin ((lat2 - lat1) * (PI / 180) * 6371000)).
Proof.
  intros [Hlo Hhi]. pose proof PI_RGT_0 as Hpi.
  rewrite haversine_fin by apply haversine_a_real. do 2 f_equal.
  unfold haversine_a. cbn [libm_sin libm_cos libm_asin real_libm].
  replace ((lon * (PI / 180) + - (lon * (PI / 180))) / 2) with 0 by lra.
  rewrite sin_0.
  set (x := (lat2 * (PI / 180) + - (lat1 * (PI / 180))) / 2).
  assert (0 <= x <= PI / 2) as Hx.
  { unfold x. split; [|nra]. apply div_nonneg; [|lra]. nra. }
  replace (sin x * sin x + cos (lat1 * (PI / 180)) * cos (lat2 * (PI / 180)) * (0 * 0))
    with (sin x * sin x) by ring.
  rewrite asin_sqrt_sin_sqr by done.
  unfold x. lra.
Qed.

(** The same along the equator. *)
Lemma haversine_equator lon1 lon2 :
  0 <= lon2 - lon1 <= 180 →
  haversine (L := real_libm) (Fin lon1) (Fin 0) (Fin lon2) (Fin 0)
  = Ret (Fin ((lon2 - lon1) * (PI / 180) * 6371000)).
Proof.
  intros [Hlo Hhi]. pose proof PI_RGT_0 as Hpi.
  rewrite haversine_fin by apply haversine_a_real. do 2 f_equal.
  unfold haversine_a. cbn [libm_sin libm_cos libm_asin real_libm].
  replace ((0 * (PI / 180) + - (0 * (PI / 180))) / 2) with 0 by lra.
  replace (0 * (PI / 180)) with 0 by lra.
  rewrite sin_0, cos_0.
  set (x := (lon2 * (PI / 180) + - (lon1 * (PI / 180))) / 2).
  assert (0 <= x <= PI / 2) as Hx.
  { unfold x. split; [|nra]. apply div_nonneg; [|lra]. nra. }
  replace (0 * 0 + 1 * 1 * (sin x * sin x)) with (sin x * sin x) by ring.
  rewrite asin_sqrt_sin_sqr by done.
  unfold x. lra.
Qed.

(** ** The step counts *)



(** A pixel count within the range of a float gives the number of
    tiles. *)
Lemma pixel_steps_fin m p im :
  p ≠ 0 → im ≠ 0%Z → Rabs (m / p) < float_overflow →
  pixel_steps (Fin m) (Fin p) im = Ret (Zceil (m / p / IZR im)).
Proof.
  intros Hp Him Hq. assert (IZR im ≠ 0) as Him' by (by apply not_0_IZR).
  unfold pixel_steps, of_int. rewrite py_div_fin by done.
  unfold mbind, result_bind. rewrite py_div_fin; [by rewrite py_int_ceil|done|].
  eapply Rle_lt_trans; [|exact Hq].
  unfold Rdiv at 1. rewrite Rabs_mult.
  rewrite <- (Rmult_1_r (Rabs (m / p))) at 2.
  apply Rmult_le_compat_l; [apply Rabs_pos|].
  rewrite Rabs_inv.
  assert (1 <= Rabs (IZR im)) as Hone.
  { rewrite <- abs_IZR. apply IZR_le. lia. }
  rewrite <- Rinv_1. apply Rinv_le_contravar; lra.
Qed.

(** A pixel count out of range: [int] raises. *)
Lemma pixel_steps_overflow m p im :
  p ≠ 0 → im ≠ 0%Z → float_overflow <= m / p →
  pixel_steps (Fin m) (Fin p) im = Raise OverflowError.
Proof.
  intros Hp Him Hq. assert (IZR im ≠ 0) as Him' by (by apply not_0_IZR).
  unfold pixel_steps, of_int. rewrite py_div_nonzero, fdiv_fin by done.
  unfold overflow at 1. rewrite decide_True by done.
  cbn [mbind result_bind]. rewrite py_div_nonzero by done.
  cbn [fdiv overflow]. by destruct (decide _).
Qed.

Lemma py_div_raise a a' p e : py_div a p = Raise e → py_div a' p = Raise e.
Proof. unfold py_div. destruct p; try done. by destruct (decide _). Qed.

(** [cut_up_steps] divides both lengths by the pixel size before it
    converts either: the outcome is that of one axis after the other. *)
Lemma cut_up_steps_pixel_steps `{L : Libm} b0 b1 b2 b3 im p w h :
  haversine b0 b1 b2 b1 = Ret w →
  haversine b0 b1 b0 b3 = Ret h →
  cut_up_steps (b0, b1, b2, b3) im p
  = sv ← pixel_steps h p im; sh ← pixel_steps w p im; Ret (sh, sv).
Proof.
  intros Hw Hh. unfold cut_up_steps, pixel_steps. rewrite Hw, Hh.
  cbn [mbind result_bind].
  destruct (py_div h p) as [hp|e] eqn:Hhp; [|done].
  destruct (py_div w p) as [wp|e] eqn:Hwp.
  - unfold mbind, result_bind.
    destruct (py_div hp (of_int im)); [|done].
    destruct (py_int _); [|done].
    by destruct (py_div wp (of_int im)).
  - by rewrite (py_div_raise w h p e Hwp) in Hhp.
Qed.

(** ** The Geographic Tiler: the table *)

(** The two loops build the table column after column. *)
Lemma foldl_snoc {A B} (f : B → A) (l : list B) (rows : list A) :
  foldl (λ rows j, rows ++ [f j]) rows l = rows ++ (f <$> l).
Proof.
  revert rows. induction l as [|j l IH]; intros rows; simpl.
  - by rewrite app_nil_r.
  - by rewrite IH, <- app_assoc.
Qed.

Lemma foldl_foldl_snoc {A B C} (f : B → C → A) (li : list B) (lj : list C)
    (rows : list A) :
  foldl (λ rows i, foldl (λ rows j, rows ++ [f i j]) rows lj) rows li
  = rows ++ (li ≫= (λ i, f i <$> lj)).
Proof.
  revert rows. induction li as [|i li IH]; intros rows; simpl.
  - by rewrite app_nil_r.
  - by rewrite IH, foldl_snoc, <- app_assoc.
Qed.

Lemma cut_up_loops_bind lon1 lat1 slon slat sh sv :
  cut_up_loops lon1 lat1 slon slat sh sv
  = seqZ 0 sh ≫= (λ i, tile_row lon1 lat1 slon slat i <$> seqZ 0 sv).
Proof.
  unfold cut_up_loops, for_range.
  apply (foldl_foldl_snoc (tile_row lon1 lat1 slon slat) _ _ []).
Qed.

(** Blocks of one length, one after the other. *)
Lemma bind_blocks_length {A B} (g : A → list B) (l : list A) (k : nat) :
  (∀ a, length (g a) = k) → length (l ≫= g) = (length l * k)%nat.
Proof.
  intros Hk. induction l as [|a l IH]; [done|].
  cbn [mbind list_bind length]. rewrite length_app, Hk.
  change (length (l ≫= g) = (length l * k)%nat) in IH. by rewrite IH.
Qed.

Lemma bind_blocks_lookup {A B} (g : A → list B) (l : list A) (k i j : nat) a :
  (∀ a, length (g a) = k) → l !! i = Some a → (j < k)%nat →
  (l ≫= g) !! (i * k + j)%nat = g a !! j.
Proof.
  intros Hk. revert i. induction l as [|a' l IH]; intros i Hi Hj; [done|].
  cbn [mbind list_bind]. destruct i as [|i]; simpl in Hi.
  - injection Hi as ->. simpl. apply lookup_app_l. by rewrite Hk.
  - rewrite lookup_app_r by (rewrite Hk; simpl; lia).
    rewrite Hk. replace (S i * k + j - k)%nat with (i * k + j)%nat by (simpl; lia).
    by apply IH.
Qed.

(** The table of [cut_up_bbox]: its length and the row of column [i]
    and row [j]. *)
Lemma cut_up_loops_length lon1 lat1 slon slat sh sv :
  length (cut_up_loops lon1 lat1 slon slat sh sv)
  = (Z.to_nat sh * Z.to_nat sv)%nat.
Proof.
  rewrite cut_up_loops_bind.
  rewrite (bind_blocks_length _ _ (Z.to_nat sv)).
  - by rewrite length_seqZ.
  - intros i. by rewrite length_fmap, length_seqZ.
Qed.

Lemma cut_up_loops_lookup lon1 lat1 slon slat sh sv i j :
  (0 ≤ i < sh)%Z → (0 ≤ j < sv)%Z →
  cut_up_loops lon1 lat1 slon slat sh sv !! Z.to_nat (i * sv + j)
  = Some (tile_row lon1 lat1 slon slat i j).
Proof.
  intros Hi Hj. rewrite cut_up_loops_bind.
  replace (Z.to_nat (i * sv + j))
    with (Z.to_nat i * Z.to_nat sv + Z.to_nat j)%nat by nia.
  rewrite (bind_blocks_lookup _ _ (Z.to_nat sv) _ _ i).
  - rewrite list_lookup_fmap, (proj2 (lookup_seqZ 0 sv (Z.to_nat j) j)); [done|lia].
  - intros a. by rewrite length_fmap, length_seqZ.
  - apply lookup_seqZ. lia.
  - lia.
Qed.

(** C4, as the code has it.  Whenever the two lengths of the box and,
    from them, the two step counts are computed, [cut_up_bbox] returns
    a table of [steps_horizontal * steps_vertical] rows, column after
    column and, within a column, row after row: the entry for column [i]
    and row [j] is at position [i * steps_vertical + j], is named
    ["i_j"], and its box starts at [lon1 + i * stepsize_lon] and
    [lat1 + j * stepsize_lat], a product with the index and no running
    sum, and ends one step further.  The step counts are
    [int(np.ceil(length / pixel_size / im_size_out))] of the width and
    of the height that [haversine] gives. *)
Theorem cut_up_bbox_grid `{L : Libm} lon1 lat1 lon2 lat2 im p w h sh sv :
  haversine lon1 lat1 lon2 lat1 = Ret w →
  haversine lon1 lat1 lon1 lat2 = Ret h →
  pixel_steps w p im = Ret sh →
  pixel_steps h p im = Ret sv →
  ∃ coord_df total_bounding_box,
    cut_up_bbox (lon1, lat1, lon2, lat2) im p
      = Ret (coord_df, total_bounding_box)
    ∧ length coord_df = (Z.to_nat sh * Z.to_nat sv)%nat
    ∧ ∀ i j, (0 ≤ i < sh)%Z → (0 ≤ j < sv)%Z →
        let step :=
          haversine_inv lon1 lat1 (fmul (of_int im) p) (fmul (of_int im) p) in
        let stepsize_lon := fsub step.1 lon1 in
        let stepsize_lat := fsub step.2 lat1 in
        let lon := fadd lon1 (fmul (of_int i) stepsize_lon) in
        let lat := fadd lat1 (fmul (of_int j) stepsize_lat) in
        coord_df !! Z.to_nat (i * sv + j)
        = Some (CoordRow (pretty i +:+ "_" +:+ pretty j) lon lat
                  (fadd lon stepsize_lon) (fadd lat stepsize_lat)).
Proof.
  intros Hw Hh Hsh Hsv. unfold cut_up_bbox.
  rewrite (cut_up_steps_pixel_steps _ _ _ _ _ _ w h Hw Hh), Hsv, Hsh.
  unfold mbind, result_bind. cbn [fst snd].
  destruct (haversine_inv lon1 lat1 (fmul (of_int im) p) (fmul (of_int im) p))
    as [lon2' lat2'] eqn:Hstep.
  destruct (haversine_inv lon1 lat1 _ _) as [lonf latf].
  eexists _, _. split_and!; [done| |].
  - apply cut_up_loops_length.
  - intros i j Hi Hj. cbn zeta. cbn [fst snd].
    by rewrite cut_up_loops_lookup.
Qed.

(** One degree by one degree at the equator, tiles of 256 pixels of one
    meter: the same number of columns and rows, at least one of each. *)
Lemma degree_in_range :
  Rabs ((1 - 0) * (PI / 180) * 6371000 / 1) < float_overflow.
Proof.
  pose proof PI_RGT_0. pose proof PI_4. pose proof float_overflow_large.
  rewrite Rabs_pos_eq; lra.
Qed.

Lemma degree_steps_pos :
  (1 ≤ Zceil ((1 - 0) * (PI / 180) * 6371000 / 1 / IZR 256))%Z.
Proof.
  apply Zceil_pos. pose proof PI_RGT_0.
  apply Rdiv_lt_0_compat; lra.
Qed.

Lemma cut_up_bbox_grid_witness :
  let n := Zceil ((1 - 0) * (PI / 180) * 6371000 / 1 / IZR 256) in
  (1 ≤ n)%Z
  ∧ ∃ coord_df total_bounding_box,
      cut_up_bbox (L := real_libm) (Fin 0, Fin 0, Fin 1, Fin 1) 256 (Fin 1)
        = Ret (coord_df, total_bounding_box)
      ∧ length coord_df = (Z.to_nat n * Z.to_nat n)%nat
      ∧ ∀ i j, (0 ≤ i < n)%Z → (0 ≤ j < n)%Z →
          let step :=
            haversine_inv (L := real_libm) (Fin 0) (Fin 0)
              (fmul (of_int 256) (Fin 1)) (fmul (of_int 256) (Fin 1)) in
          let stepsize_lon := fsub step.1 (Fin 0) in
          let stepsize_lat := fsub step.2 (Fin 0) in
          let lon := fadd (Fin 0) (fmul (of_int i) stepsize_lon) in
          let lat := fadd (Fin 0) (fmul (of_int j) stepsize_lat) in
          coord_df !! Z.to_nat (i * n + j)
          = Some (CoordRow (pretty i +:+ "_" +:+ pretty j) lon lat
                    (fadd lon stepsize_lon) (fadd lat stepsize_lat)).
Proof.
  split; [exact degree_steps_pos|].
  apply (cut_up_bbox_grid (L := real_libm) (Fin 0) (Fin 0) (Fin 1) (Fin 1) 256
           (Fin 1) (Fin ((1 - 0) * (PI / 180) * 6371000))
           (Fin ((1 - 0) * (PI / 180) * 6371000))).
  - apply haversine_equator. lra.
  - apply haversine_meridian. lra.
  - apply pixel_steps_fin; [lra|lia|exact degree_in_range].
  - apply pixel_steps_fin; [lra|lia|exact degree_in_range].
Defined.

(** C4, as the claim states it, fails: the box (5, 52, 6, 53) is
    normalized, the tile pixel count 256 and the pixel size [1e-320]
    are positive, and [cut_up_bbox] produces no tile: the height in
    pixels is out of the range of a float, and [int] raises
    [OverflowError]. *)
Lemma cut_up_bbox_overflows :
  5 < 6 ∧ 52 < 53 ∧ (0 < 256)%Z ∧ 0 < / IZR (10 ^ 320)
  ∧ cut_up_bbox (L := real_libm) (Fin 5, Fin 52, Fin 6, Fin 53) 256
      (Fin (/ IZR (10 ^ 320)))
    = Raise OverflowError.
Proof.
  assert (0 < IZR (10 ^ 320)) as Hbig by (apply IZR_lt; by vm_compute).
  assert (float_overflow <= IZR (10 ^ 320)) as Hover.
  { unfold float_overflow. apply IZR_le. by vm_compute. }
  split_and!; [lra|lra|lia|by apply Rinv_0_lt_compat|].
  destruct (haversine_same_lat (L := real_libm) 5 52 6) as [w Hw].
  pose proof (haversine_meridian 5 52 53 ltac:(lra)) as Hh.
  unfold cut_up_bbox.
  rewrite (cut_up_steps_pixel_steps _ _ _ _ _ _ _ _ Hw Hh).
  rewrite (pixel_steps_overflow ((53 - 52) * (PI / 180) * 6371000));
    [reflexivity| |lia|].
  - apply Rinv_neq_0_compat. lra.
  - pose proof PI2_3_2.
    replace ((53 - 52) * (PI / 180) * 6371000 / / IZR (10 ^ 320))
      with ((53 - 52) * (PI / 180) * 6371000 * IZR (10 ^ 320))
      by (field; lra).
    nra.
Qed.

(** ** The vegetation index *)

Lemma np_map2_lookup f (a b : matrix) i j ra rb x y :
  a !! i = Some ra → ra !! j = Some x →
  b !! i = Some rb → rb !! j = Some y →
  ∃ row, np_map2 f a b !! i = Some row ∧ row !! j = Some (f x y).
Proof.
  intros Ha Hx Hb Hy. exists (zip_with f ra rb). unfold np_map2, matrix in *.
  split.
  - rewrite lookup_zip_with. by rewrite Ha, Hb.
  - rewrite lookup_zip_with. by rewrite Hx, Hy.
Qed.

(** The index at a pixel is [(nir - red) / (nir + red)] at that pixel. *)
Lemma calculate_ndvi_lookup nir red i j rn rr x y :
  nir !! i = Some rn → rn !! j = Some x →
  red !! i = Some rr → rr !! j = Some y →
  ∃ row, calculate_ndvi nir red !! i = Some row
         ∧ row !! j = Some (fdiv (fsub x y) (fadd x y)).
Proof.
  intros Hn Hx Hr Hy. unfold calculate_ndvi.
  destruct (np_map2_lookup fsub nir red i j rn rr x y) as (r1 & ? & ?); [done..|].
  destruct (np_map2_lookup fadd nir red i j rn rr x y) as (r2 & ? & ?); [done..|].
  by apply (np_map2_lookup fdiv _ _ i j r1 r2).
Qed.

Lemma ndvi_bound x y :
  0 <= x → 0 <= y → x + y ≠ 0 → -1 <= (x + - y) / (x + y) <= 1.
Proof.
  intros Hx Hy Hxy. assert (0 < x + y) as Hpos by lra.
  pose proof (Rinv_0_lt_compat _ Hpos) as Hinv.
  assert ((x + - y) / (x + y) * (x + y) = x + - y) as Hmul by (by field).
  split; apply (Rmult_le_reg_r (x + y)); try done; rewrite Hmul; lra.
Qed.

(** C5, as the code has it.  For reflectances that are finite and not
    negative, with [nir + red] not zero at a pixel, the index at that
    pixel is finite and within [-1, 1]. *)
Theorem calculate_ndvi_range nir red i j rn rr x y :
  nir !! i = Some rn → rn !! j = Some (Fin x) →
  red !! i = Some rr → rr !! j = Some (Fin y) →
  0 <= x → 0 <= y → x + y ≠ 0 →
  ∃ row v,
    calculate_ndvi nir red !! i = Some row
    ∧ row !! j = Some (Fin v)
    ∧ -1 <= v <= 1
    ∧ fle (Fin (-1)) (Fin v) = true ∧ fle (Fin v) (Fin 1) = true.
Proof.
  intros Hn Hx Hr Hy Hx0 Hy0 Hxy.
  destruct (calculate_ndvi_lookup nir red i j rn rr _ _ Hn Hx Hr Hy)
    as (row & Hrow & Hv).
  exists row, ((x + - y) / (x + y)).
  pose proof (ndvi_bound x y Hx0 Hy0 Hxy) as [Hlo Hhi].
  split_and!; [done| |done..| |].
  - rewrite Hv. cbn [fsub fadd fneg]. by rewrite fdiv_fin.
  - by apply bool_decide_eq_true_2.
  - by apply bool_decide_eq_true_2.
Qed.

Lemma calculate_ndvi_range_witness :
  ∃ row v,
    calculate_ndvi [[Fin 3; Fin 1]] [[Fin 1; Fin 1]] !! 0%nat = Some row
    ∧ row !! 0%nat = Some (Fin v)
    ∧ -1 <= v <= 1
    ∧ fle (Fin (-1)) (Fin v) = true ∧ fle (Fin v) (Fin 1) = true.
Proof.
  apply (calculate_ndvi_range [[Fin 3; Fin 1]] [[Fin 1; Fin 1]] 0 0
           [Fin 3; Fin 1] [Fin 1; Fin 1] 3 1); try reflexivity; lra.
Defined.

(** The bound does not depend on exact arithmetic: it holds for every
    rounding that is monotone and odd and keeps [1]. *)
Lemma ndvi_rounded_range (rnd : R → R) x y :
  (∀ a b, a <= b → rnd a <= rnd b) →
  (∀ a, rnd (- a) = - rnd a) →
  rnd 1 = 1 →
  0 <= x → 0 <= y → rnd (x + y) ≠ 0 →
  -1 <= ndvi_rounded rnd x y <= 1.
Proof.
  intros Hmono Hodd Hone Hx Hy Hsum. unfold ndvi_rounded.
  assert (rnd 0 = 0) as Hzero.
  { pose proof (Hodd 0) as H0. rewrite Ropp_0 in H0. lra. }
  assert (0 < rnd (x + y)) as Hpos.
  { pose proof (Hmono 0 (x + y) ltac:(lra)). lra. }
  assert (rnd (x - y) <= rnd (x + y)) as Hhi by (apply Hmono; lra).
  assert (- rnd (x + y) <= rnd (x - y)) as Hlo.
  { rewrite <- Hodd. apply Hmono. lra. }
  pose proof (Rinv_0_lt_compat _ Hpos) as Hinv.
  assert (rnd (x - y) / rnd (x + y) * rnd (x + y) = rnd (x - y)) as Hmul
    by (by field).
  assert (-1 <= rnd (x - y) / rnd (x + y) <= 1) as [H1 H2].
  { split; apply (Rmult_le_reg_r (rnd (x + y))); try done; rewrite Hmul; lra. }
  pose proof (Hodd 1) as Hm1. rewrite Hone in Hm1.
  assert (- (1) <= rnd (x - y) / rnd (x + y)) as H1' by lra.
  pose proof (Hmono _ _ H1') as Hlow.
  pose proof (Hmono _ _ H2) as Hup.
  lra.
Qed.

Lemma calculate_ndvi_exact x y :
  x + y ≠ 0 →
  fdiv (fsub (Fin x) (Fin y)) (fadd (Fin x) (Fin y))
  = Fin (ndvi_rounded id x y).
Proof.
  intros Hxy. cbn [fsub fadd fneg]. rewrite fdiv_fin by done.
  unfold ndvi_rounded, id. f_equal.
Qed.

(** C5, as the claim states it, fails: [nir = 2] and [red = -1] are
    finite, their sum is [1], and the index is [3]. *)
Lemma calculate_ndvi_exceeds_one :
  2 + -1 ≠ 0
  ∧ calculate_ndvi [[Fin 2]] [[Fin (-1)]] = [[Fin 3]]
  ∧ fle (Fin 3) (Fin 1) = false.
Proof.
  split_and!.
  - lra.
  - unfold calculate_ndvi, np_map2. cbn [zip_with fsub fadd fneg].
    rewrite fdiv_fin by lra. do 3 f_equal. lra.
  - apply bool_decide_eq_false_2. lra.
Qed.

(** ** The detection transform *)

Lemma scale_inf_pos x pos : 0 < x → scale_inf x pos = if pos then PInf else NInf.
Proof.
  intros Hx. unfold scale_inf.
  rewrite decide_False by lra. by rewrite decide_True.
Qed.

Lemma fmul_comm a b : fmul a b = fmul b a.
Proof. destruct a, b; simpl; try done. f_equal. lra. Qed.

(** Twice [r], times pi, is [2 pi] times [r], also for an [r] that is
    not finite. *)
Lemma fmul_two_pi r :
  fmul (fmul r (of_int 2)) math_pi = fmul (fmul (of_int 2) math_pi) r.
Proof.
  pose proof PI_RGT_0. unfold of_int, math_pi.
  destruct r; cbn [fmul]; rewrite ?scale_inf_pos by lra;
    cbn [fmul]; rewrite ?scale_inf_pos by lra; try done.
  f_equal. lra.
Qed.

(** What the transform makes of the raw detections [(row, col, sigma)]
    in an index image of [height] rows, when there is one at least. *)
Lemma blobs_to_features_map `{L : Libm} raw ndvi pixel_size b :
  raw ≠ [] →
  blobs_to_features (map (λ '(r, c, s), (r, c, fmul s math_sqrt2)) raw)
    ndvi pixel_size b
  = Ret (map (λ '(row, col, sigma),
          let r := fmul (fmul sigma math_sqrt2) pixel_size in
          let y := fsub (of_int (Z.of_nat (length ndvi))) row in
          let coord :=
            haversine_inv b.1.1.1 b.1.1.2 (fmul col pixel_size) (fmul y pixel_size) in
          Feature coord.1 coord.2 r (fmul r (of_int 2))
            (fmul (fmul r (of_int 2)) math_pi) (fmul (fmul r r) math_pi)) raw).
Proof.
  intros Hraw. unfold blobs_to_features, points_to_coords, astype_float32.
  destruct raw as [|[[row col] sigma] raw]; [done|]. clear Hraw.
  cbn [map]. unfold mbind, result_bind. f_equal.
  cbn [map zip_with]. destruct (haversine_inv _ _ _ _) as [lon lat].
  cbn [fst snd]. f_equal.
  induction raw as [|[[row' col'] sigma'] raw IH]; [done|].
  cbn [map zip_with]. rewrite IH.
  by destruct (haversine_inv _ _ _ _).
Qed.

(** Without a detection the transform raises. *)
Lemma blobs_to_features_nil `{L : Libm} ndvi pixel_size b :
  blobs_to_features [] ndvi pixel_size b = Raise ValueError.
Proof. done. Qed.

(** When [scale_space_tree_detect] returns a table, the table is the
    transform of what the blob detector returned. *)
Lemma scale_space_tree_detect_inv `{Services} `{L : Libm} images folders s
    fname b w feats w' :
  scale_space_tree_detect images folders s fname b w = (Ret (Some feats), w') →
  ∃ ndvi kwargs raw,
    blob_log ndvi kwargs = Ret raw
    ∧ blobs_to_features (map (λ '(r, c, s), (r, c, fmul s math_sqrt2)) raw)
        ndvi (data_pixel_size s) b
      = Ret feats.
Proof.
  unfold scale_space_tree_detect. intros Hrun.
  io_step Hrun. io_step Hrun.
  destruct a0; [done|].
  do 2 io_step Hrun. io_step Hrun. destruct a2 as [nir red].
  do 7 io_step Hrun. io_step Hrun. io_step Hrun.
  injection Hrun as <- _.
  match goal with
  | Hb : log_blob_detect _ _ = Ret _ |- _ =>
      unfold log_blob_detect in Hb;
      apply result_bind_Ret_inv in Hb as (raw & Hraw & [= <-])
  end.
  eauto.
Qed.

(** The transform returns a table when no earlier result is to be kept,
    the near-infrared raster has three channels, pixel size and radius
    step are finite and not zero, the radii in pixels are within the
    range of a float, and the blob detector returns a detection. *)
Lemma scale_space_tree_detect_returns `{Services} `{L : Libm} images folders s
    fname b w nir_api c_nir c_red c_green p r0 r1 dr results :
  redo_if_already_processed s = true →
  getitem (data_api s) "nir" = Ret nir_api →
  getitem images "nir" = Ret ([c_nir; c_red; c_green] : image) →
  data_pixel_size s = Fin p → p ≠ 0 →
  minrad s = Fin r0 → maxrad s = Fin r1 → steprad s = Fin dr → dr ≠ 0 →
  Rabs (r0 / p) < float_overflow → Rabs (r1 / p) < float_overflow →
  Rabs ((r1 + - r0) / p) < float_overflow → Rabs (dr / p) < float_overflow →
  Rabs ((r1 + - r0) / p / (dr / p)) < float_overflow →
  (∀ img kw, ∃ d raw, blob_log img kw = Ret (d :: raw)) →
  getitem folders "results" = Ret results →
  ∃ feats w',
    scale_space_tree_detect images folders s fname b w = (Ret (Some feats), w').
Proof.
  intros Hredo Hapi Himg Hp Hp0 Hr0 Hr1 Hdr Hdr0 Hb0 Hb1 Hb2 Hb3 Hb4 Hblob Hres.
  assert (dr / p ≠ 0) as Hstep.
  { unfold Rdiv. apply Rmult_integral_contrapositive_currified; [done|].
    by apply Rinv_neq_0_compat. }
  unfold scale_space_tree_detect.
  rewrite Hredo, Hapi, Himg, Hp, Hr0, Hr1, Hdr, Hres.
  io_run. cbn [split_channels clamp_values map fsub fadd fneg]. io_run.
  rewrite !py_div_fin by done. io_run.
  rewrite py_div_fin by done. io_run.
  cbn [py_int]. io_run.
  unfold log_blob_detect.
  match goal with
  | |- context [blob_log ?img ?kw] =>
      destruct (Hblob img kw) as (d & raw & ->)
  end.
  change (Ret (d :: raw) ≫= ?f) with (f (d :: raw)). cbv beta. io_run.
  rewrite blobs_to_features_map by done. io_run.
  destruct (save_results s); io_run; unfold write_file; io_run; eauto.
Qed.

(** C6.  The table that [scale_space_tree_detect] returns has one row
    for each raw detection [(row, col, sigma)] of the blob detector, in
    the same order; its radius is [sigma * sqrt 2] (pixels) times the
    pixel size (meters), its diameter [2 * radius], its circumference
    [2 * pi * radius] and its area [pi * radius * radius]. *)
Theorem scale_space_tree_detect_geometry `{Services} `{L : Libm} images folders
    s fname b w feats w' :
  scale_space_tree_detect images folders s fname b w = (Ret (Some feats), w') →
  ∃ ndvi kwargs raw,
    blob_log ndvi kwargs = Ret raw
    ∧ Forall2 (λ '(row, col, sigma) f,
        radius f = fmul (fmul sigma math_sqrt2) (data_pixel_size s)
        ∧ diameter f = fmul (of_int 2) (radius f)
        ∧ circumference f = fmul (fmul (of_int 2) math_pi) (radius f)
        ∧ area f = fmul math_pi (fmul (radius f) (radius f))) raw feats.
Proof.
  intros (ndvi & kwargs & raw & Hraw & Hfeats)%scale_space_tree_detect_inv.
  exists ndvi, kwargs, raw. split; [done|].
  destruct (decide (raw = [])) as [->|Hne]; [done|].
  rewrite blobs_to_features_map in Hfeats by done. injection Hfeats as <-.
  apply Forall2_fmap_r, Forall_Forall2_diag.
  apply Forall_forall. intros [[row col] sigma] _. cbn zeta.
  cbn [radius diameter circumference area].
  split_and!; [done|apply fmul_comm|apply fmul_two_pi|apply fmul_comm].
Qed.

Lemma small_in_range x : Rabs x < 1000 → Rabs x < float_overflow.
Proof. pose proof float_overflow_large. lra. Qed.

Lemma scale_space_tree_detect_geometry_witness :
  ∃ feats w',
    scale_space_tree_detect (H := online_services) (L := real_libm)
      [("nir", demo_image)]
      demo_folders (demo_settings false) "0_0" (Fin 0, Fin 0, Fin 1, Fin 1)
      empty_world
    = (Ret (Some feats), w')
    ∧ ∃ ndvi kwargs raw,
        blob_log (Services := online_services) ndvi kwargs = Ret raw
        ∧ Forall2 (λ '(row, col, sigma) f,
            radius f = fmul (fmul sigma math_sqrt2) (Fin 1)
            ∧ diameter f = fmul (of_int 2) (radius f)
            ∧ circumference f = fmul (fmul (of_int 2) math_pi) (radius f)
            ∧ area f = fmul math_pi (fmul (radius f) (radius f))) raw feats.
Proof.
  destruct (scale_space_tree_detect_returns (H := online_services)
              (L := real_libm)
              [("nir", demo_image)] demo_folders (demo_settings false) "0_0"
              (Fin 0, Fin 0, Fin 1, Fin 1) empty_world demo_api
              [[Fin 200; Fin 100]] [[Fin 50; Fin 100]] [[Fin 0; Fin 0]]
              1 1 5 1 "./data/run/results")
    as (feats & w' & Hrun); try reflexivity; try lra;
    try (apply small_in_range, Rabs_def1; lra).
  { intros img kw. by eexists _, _. }
  exists feats, w'. split; [exact Hrun|].
  exact (scale_space_tree_detect_geometry (H := online_services)
           (L := real_libm) _ _ _ _ _ _ _ _ Hrun).
Defined.

(** ** The Geographic Tiler on input that is not finite *)












(** Once the step counts are there, [cut_up_bbox] returns. *)
Lemma cut_up_bbox_of_steps `{L : Libm} b im p sh sv :
  cut_up_steps b im p = Ret (sh, sv) →
  ∃ coord_df total_bounding_box,
    cut_up_bbox b im p = Ret (coord_df, total_bounding_box).
Proof.
  intros Hsteps. unfold cut_up_bbox. rewrite Hsteps.
  unfold mbind, result_bind. cbn [fst snd].
  do 2 destruct (haversine_inv _ _ _ _). eauto.
Qed.





(** ** The names of the tiles are distinct *)

Lemma pretty_N_go_no_underscore x s :
  no_char "_" s → no_char "_" (pretty_N_go x s).
Proof.
  revert s. induction (N.lt_wf_0 x) as [x _ IH]; intros s Hs.
  assert (x = 0 ∨ 0 < x)%N as [->|Hx] by lia.
  - by rewrite pretty_N_go_0.
  - rewrite pretty_N_go_step by done. apply IH.
    { by apply N.div_lt. }
    split; [|done]. unfold pretty_N_char. by repeat case_match.
Qed.

Lemma pretty_Z_no_underscore (z : Z) : no_char "_" (pretty z).
Proof.
  assert (∀ p : positive, no_char "_" (pretty p)) as Hpos.
  { intros p. unfold pretty, pretty_positive, pretty, pretty_N.
    case_decide; [done|]. by apply pretty_N_go_no_underscore. }
  destruct z as [|p|p]; [done|apply Hpos|].
  unfold pretty, pretty_Z. split; [done|apply Hpos].
Qed.

Lemma append_sep_inj c s1 t1 s2 t2 :
  no_char c s1 → no_char c s2 →
  s1 +:+ String c t1 = s2 +:+ String c t2 → s1 = s2 ∧ t1 = t2.
Proof.
  revert s2. induction s1 as [|a s1 IH]; intros [|a' s2]; simpl.
  - by intros _ _ [= ->].
  - by intros _ [Hne _] [= <- _].
  - by intros [Hne _] _ [= -> _].
  - intros [_ H1] [_ H2] [= -> Heq].
    by destruct (IH s2 H1 H2 Heq) as [-> ->].
Qed.

Lemma tile_fname_inj i j i' j' :
  tile_fname i j = tile_fname i' j' → i = i' ∧ j = j'.
Proof.
  unfold tile_fname. intros Heq.
  apply append_sep_inj in Heq as [Hi Hj]; try apply pretty_Z_no_underscore.
  by apply (inj pretty) in Hi, Hj.
Qed.

Lemma cut_up_loops_NoDup lon1 lat1 slon slat sh sv :
  NoDup (filename <$> cut_up_loops lon1 lat1 slon slat sh sv).
Proof.
  rewrite cut_up_loops_bind.
  assert (filename <$> (seqZ 0 sh ≫= λ i, tile_row lon1 lat1 slon slat i <$> seqZ 0 sv)
          = seqZ 0 sh ≫= (λ i, tile_fname i <$> seqZ 0 sv)) as ->.
  { induction (seqZ 0 sh) as [|i l IH]; [done|].
    cbn [mbind list_bind]. rewrite fmap_app. f_equal; [|exact IH].
    by rewrite <- list_fmap_compose. }
  apply NoDup_bind.
  - intros i i' y _ _ (j & -> & _)%list_elem_of_fmap (j' & Heq & _)%list_elem_of_fmap.
    by apply tile_fname_inj in Heq as [-> _].
  - intros i _. apply NoDup_fmap_2_strong; [|apply NoDup_seqZ].
    intros j j' _ _ Heq. by apply tile_fname_inj in Heq as [_ ->].
  - apply NoDup_seqZ.
Qed.

(** Whatever [cut_up_bbox] returns has distinct file names. *)
Lemma cut_up_bbox_NoDup `{L : Libm} b im pixel_size coord_df
    total_bounding_box :
  cut_up_bbox b im pixel_size = Ret (coord_df, total_bounding_box) →
  NoDup (filename <$> coord_df).
Proof.
  unfold cut_up_bbox.
  intros ([sh sv] & _ & Hret)%result_bind_Ret_inv.
  do 2 destruct (haversine_inv _ _ _ _). injection Hret as <- _.
  apply cut_up_loops_NoDup.
Qed.

(** ** The whole run *)

Lemma select_total_returns folders coord_df todo w base :
  getitem folders "base" = Ret base →
  ∃ total w', select_total folders coord_df todo w = (Ret total, w').
Proof.
  intros Hbase. unfold select_total. destruct todo as [t|]; [|by eauto].
  rewrite Hbase, io_bind_lift_Ret, io_bind_print. cbv beta.
  unfold mbind at 1, io_bind at 1.
  match goal with
  | |- context [get_todo_filenames ?df ?path ?w0] =>
      destruct (get_todo_filenames_spec df path w0) as (w1 & -> & _)
  end.
  destruct (todo_column _ _) as [[|id col]|]; try by eauto.
  destruct (todo_indices coord_df (id :: col)); by eauto.
Qed.

Lemma log_failed_returns folders ntotal st w base :
  getitem folders "base" = Ret base →
  ∃ w', log_failed folders ntotal st w = (Ret (), w').
Proof.
  intros Hbase. unfold log_failed. rewrite io_bind_print, ?io_bind_mret.
  cbv beta. case_bool_decide; [|by eauto].
  rewrite Hbase, io_bind_lift_Ret. cbv beta.
  unfold mbind at 1, io_bind at 1, os_path_exists at 1.
  destruct (negb _); [|by eauto].
  rewrite io_bind_lift_Ret. unfold write_file. eauto.
Qed.

(** Once the clients of the raster services are set up, the run returns
    the names the main loop recorded: no tile can abort it. *)
Lemma analysis_pipeline_returns `{Services} s folders coord_df analysis_method
    todo w data_getters w1 base :
  setup_data_getters s w = (Ret data_getters, w1) →
  getitem folders "base" = Ret base →
  ∃ total w2 st w3 w4,
    select_total folders coord_df todo w1 = (Ret total, w2)
    ∧ main_loop s folders coord_df analysis_method data_getters total w2
      = (Ret st, w3)
    ∧ log_failed folders (length total) st w3 = (Ret (), w4)
    ∧ analysis_pipeline s folders coord_df analysis_method todo w
      = (Ret (folders, succeeded st, failed st), w4).
Proof.
  intros Hsetup Hbase.
  destruct (select_total_returns folders coord_df todo w1 base Hbase)
    as (total & w2 & Hsel).
  pose proof (select_total_in_range _ _ _ _ _ _ Hsel) as Hin.
  destruct (for_each_process_tile s folders coord_df analysis_method
              data_getters (length total) total (LoopState [] [] 0) w2 Hin)
    as (oks & w3 & _ & Hloop).
  destruct (log_failed_returns folders (length total)
              (LoopState ([] ++ recorded true (selected_filenames coord_df total) oks)
                         ([] ++ recorded false (selected_filenames coord_df total) oks)
                         (0 + length total)) w3 base Hbase) as (w4 & Hlog).
  eexists total, w2, _, w3, w4. split_and!; [done|exact Hloop|exact Hlog|].
  unfold analysis_pipeline.
  erewrite io_bind_ret by exact Hsetup.
  erewrite io_bind_ret by exact Hsel.
  erewrite io_bind_ret by exact Hloop.
  by erewrite io_bind_ret by exact Hlog.
Qed.

(** A run with the server unreachable: both tiles fail and the retry
    file is written. *)
Example analysis_pipeline_offline_run :
  ∃ w',
    analysis_pipeline (H := offline_services) (demo_settings false)
      demo_folders demo_coord_df None None empty_world
    = (Ret (demo_folders, [], ["0_0"; "0_1"]), w')
    ∧ files w'
      = {[ "./data/run/failed.csv" := CsvFile [("filename", ["0_0"; "0_1"])] ]}.
Proof. eexists. split; reflexivity. Qed.

(** A run with caching enabled and the raster of tile [0_0] cached: the
    cached tile is the one that fails, without a request for it; tile
    [0_1] is fetched and stored. *)
Example analysis_pipeline_cached_tile_fails :
  ∃ w',
    analysis_pipeline (H := online_services) demo_settings_cache
      demo_folders demo_coord_df None None cached_world
    = (Ret (demo_folders, ["0_1"], ["0_0"]), w')
    ∧ wms_requests w' = [("nir_layer", (Fin 0, Fin 1, Fin 1, Fin 2))]
    ∧ is_Some (files w' !! "./data/run/nir/0_1.png").
Proof. eexists. split_and!; [reflexivity..|]. by eexists. Qed.

(** * Further properties of the code *)

(** ** coordinate_utils.py: [check_bbox] *)

(** The low and the high end of a pair as [check_bbox] orders it. *)
Lemma flt_swap_false a b : flt a b = true → flt b a = false.
Proof.
  destruct a as [x| | |], b as [y| | |]; simpl; try done.
  intros Hlt%bool_decide_eq_true. apply bool_decide_eq_false. lra.
Qed.

(** [check_bbox] normalizes: in its result neither high end is below
    the low end, and a second pass changes nothing, also when a
    coordinate is an infinity or NaN. *)
Theorem check_bbox_normalizes b :
  flt (check_bbox b).1.2 (check_bbox b).1.1.1 = false
  ∧ flt (check_bbox b).2 (check_bbox b).1.1.2 = false
  ∧ check_bbox (check_bbox b) = check_bbox b.
Proof.
  destruct b as [[[lon1 lat1] lon2] lat2]. unfold check_bbox.
  destruct (flt lon2 lon1) eqn:Hlon, (flt lat2 lat1) eqn:Hlat; cbn [fst snd];
    rewrite ?(flt_swap_false _ _ Hlon), ?(flt_swap_false _ _ Hlat), ?Hlon, ?Hlat;
    done.
Qed.

(** ** coordinate_utils.py: [haversine] *)

Lemma haversine_a_sym `{L : Libm} lon1 lat1 lon2 lat2 :
  haversine_a lon2 lat2 lon1 lat1 = haversine_a lon1 lat1 lon2 lat2.
Proof.
  unfold haversine_a.
  replace ((lat1 * (PI / 180) + - (lat2 * (PI / 180))) / 2)
    with (- ((lat2 * (PI / 180) + - (lat1 * (PI / 180))) / 2)) by lra.
  replace ((lon1 * (PI / 180) + - (lon2 * (PI / 180))) / 2)
    with (- ((lon2 * (PI / 180) + - (lon1 * (PI / 180))) / 2)) by lra.
  rewrite !libm_sin_odd. ring.
Qed.

Lemma haversine_a_self `{L : Libm} lon lat : haversine_a lon lat lon lat = 0.
Proof.
  unfold haversine_a.
  replace ((lat * (PI / 180) + - (lat * (PI / 180))) / 2) with 0 by lra.
  replace ((lon * (PI / 180) + - (lon * (PI / 180))) / 2) with 0 by lra.
  rewrite libm_sin_0. ring.
Qed.

(** The distance does not depend on the order of the two points, and
    it is zero from a point to itself. *)
Theorem haversine_symmetric `{L : Libm} lon1 lat1 lon2 lat2 :
  haversine (Fin lon1) (Fin lat1) (Fin lon2) (Fin lat2)
  = haversine (Fin lon2) (Fin lat2) (Fin lon1) (Fin lat1)
  ∧ haversine (Fin lon1) (Fin lat1) (Fin lon1) (Fin lat1) = Ret (Fin 0).
Proof.
  split.
  - by rewrite !haversine_finite, haversine_a_sym.
  - rewrite haversine_fin by (rewrite haversine_a_self; lra).
    rewrite haversine_a_self, sqrt_0, libm_asin_0. do 2 f_equal. ring.
Qed.

(** ** coordinate_utils.py: [cut_up_bbox] *)

(** One degree by one degree at the equator: the step counts. *)
Lemma degree_box_steps :
  cut_up_steps (L := real_libm) (Fin 0, Fin 0, Fin 1, Fin 1) 256 (Fin 1)
  = Ret (Zceil ((1 - 0) * (PI / 180) * 6371000 / 1 / IZR 256),
         Zceil ((1 - 0) * (PI / 180) * 6371000 / 1 / IZR 256)).
Proof.
  rewrite (cut_up_steps_pixel_steps _ _ _ _ _ _
             (Fin ((1 - 0) * (PI / 180) * 6371000))
             (Fin ((1 - 0) * (PI / 180) * 6371000)));
    [|apply haversine_equator; lra|apply haversine_meridian; lra].
  by rewrite !pixel_steps_fin by (lra || lia || exact degree_in_range).
Qed.

Lemma cut_up_bbox_NoDup_witness :
  ∃ coord_df total_bounding_box,
    cut_up_bbox (L := real_libm) (Fin 0, Fin 0, Fin 1, Fin 1) 256 (Fin 1)
    = Ret (coord_df, total_bounding_box)
    ∧ NoDup (filename <$> coord_df).
Proof.
  destruct (cut_up_bbox_of_steps (L := real_libm) _ _ _ _ _ degree_box_steps)
    as (coord_df & total_bounding_box & Hcut).
  eexists _, _. split; [exact Hcut|].
  exact (cut_up_bbox_NoDup _ _ _ _ _ Hcut).
Defined.

(** ** geo_indices.py and preprocess.py *)

Lemma zip_with_zip_with_same {A B C D E} (f : C → D → E) (g : A → B → C)
    (h : A → B → D) a b :
  zip_with f (zip_with g a b) (zip_with h a b)
  = zip_with (λ x y, f (g x y) (h x y)) a b.
Proof.
  revert b. induction a as [|x a IH]; intros [|y b]; cbn; [done..|].
  by rewrite IH.
Qed.

Lemma zip_with_pointwise {A B C} (f g : A → B → C) a b :
  (∀ x y, f x y = g x y) → zip_with f a b = zip_with g a b.
Proof.
  intros Hfg. revert b. induction a as [|x a IH]; intros [|y b]; cbn; [done..|].
  by rewrite Hfg, IH.
Qed.

Lemma zip_with_map_map {A A' B B' C} (f : A' → B' → C) (g1 : A → A')
    (g2 : B → B') a b :
  zip_with f (map g1 a) (map g2 b) = zip_with (λ x y, f (g1 x) (g2 y)) a b.
Proof.
  revert b. induction a as [|x a IH]; intros [|y b]; cbn; [done..|].
  by rewrite IH.
Qed.

Lemma map_zip_with {A B C D} (g : C → D) (f : A → B → C) a b :
  map g (zip_with f a b) = zip_with (λ x y, g (f x y)) a b.
Proof.
  revert b. induction a as [|x a IH]; intros [|y b]; cbn; [done..|].
  by rewrite IH.
Qed.

Lemma np_map2_ext f g (a b : matrix) :
  (∀ x y, f x y = g x y) → np_map2 f a b = np_map2 g a b.
Proof.
  intros Hfg. apply zip_with_pointwise. intros ra rb.
  by apply zip_with_pointwise.
Qed.

Lemma np_map2_fused f g h (a b : matrix) :
  np_map2 f (np_map2 g a b) (np_map2 h a b)
  = np_map2 (λ x y, f (g x y) (h x y)) a b.
Proof.
  unfold np_map2, matrix. rewrite zip_with_zip_with_same.
  apply zip_with_pointwise. intros ra rb. apply zip_with_zip_with_same.
Qed.

Lemma np_map2_np_map f g1 g2 (a b : matrix) :
  np_map2 f (np_map g1 a) (np_map g2 b)
  = np_map2 (λ x y, f (g1 x) (g2 y)) a b.
Proof.
  unfold np_map2, np_map, matrix. rewrite zip_with_map_map.
  apply zip_with_pointwise. intros ra rb. apply zip_with_map_map.
Qed.

Lemma np_map_np_map2 g f (a b : matrix) :
  np_map g (np_map2 f a b) = np_map2 (λ x y, g (f x y)) a b.
Proof.
  unfold np_map2, np_map, matrix. rewrite map_zip_with.
  apply zip_with_pointwise. intros ra rb. apply map_zip_with.
Qed.

Lemma np_map2_Forall (P : pyfloat → Prop) f (a b : matrix) :
  (∀ x y, P (f x y)) → Forall (Forall P) (np_map2 f a b).
Proof.
  intros Hf. unfold np_map2, matrix.
  revert b. induction a as [|ra a IH]; intros [|rb b]; cbn; [constructor..|].
  constructor; [|apply IH].
  clear IH. revert rb. induction ra as [|x ra IH]; intros [|y rb]; cbn;
    [constructor..|].
  constructor; [apply Hf|apply IH].
Qed.

(** The three indices, pixel by pixel. *)
Lemma calculate_ndvi_fused nir red :
  calculate_ndvi nir red = np_map2 (λ x y, fdiv (fsub x y) (fadd x y)) nir red.
Proof. apply np_map2_fused. Qed.

Lemma calculate_savi_fused nir red l :
  calculate_savi nir red l
  = np_map2 (λ x y, fdiv (fmul (fadd (of_int 1) l) (fsub x y))
                         (fadd (fadd x y) l)) nir red.
Proof. unfold calculate_savi. by rewrite !np_map_np_map2, np_map2_fused. Qed.

Lemma calculate_evi2_fused nir red c l g :
  calculate_evi2 nir red c l g false
  = np_map2 (λ x y, fmul g (fdiv (fsub x y) (fadd (fadd l x) (fmul c y))))
      nir red.
Proof.
  unfold calculate_evi2.
  rewrite (np_map2_np_map fadd (fadd l) (fmul c)).
  by rewrite np_map2_fused, np_map_np_map2.
Qed.

(** With [max_value] zero nothing is raised: the index is NaN at every
    pixel, whatever the raster holds. *)
Theorem calculate_ndvi_zero_max_value nir red green :
  match split_channels (clamp_values [nir; red; green] (Fin 0)) with
  | [nir'; red'; _] => Forall (Forall (λ v, v = NaN)) (calculate_ndvi nir' red')
  | _ => False
  end.
Proof.
  unfold split_channels, clamp_values. cbn [map].
  change (map (map ?f) ?a) with (np_map f a).
  rewrite calculate_ndvi_fused, np_map2_np_map.
  apply np_map2_Forall. intros x y.
  assert (∀ v, fdiv v (Fin 0) = NaN ∨ fdiv v (Fin 0) = PInf
               ∨ fdiv v (Fin 0) = NInf) as Hs.
  { intros [r| | |]; cbn [fdiv]; [| |by rewrite decide_False by lra; auto|auto].
    - rewrite decide_True by done. repeat destruct (decide _); auto.
    - rewrite decide_False by lra. auto. }
  destruct (Hs x) as [-> | [-> | ->]], (Hs y) as [-> | [-> | ->]]; done.
Qed.

(** A pixel that is black in both bands has no index: the result
    holds NaN there.  For reflectances that are not negative these are
    the only such pixels, and no pixel is infinite. *)
Theorem calculate_ndvi_nan_pixels nir red i j rn rr x y :
  nir !! i = Some rn → rn !! j = Some (Fin x) →
  red !! i = Some rr → rr !! j = Some (Fin y) →
  0 <= x → 0 <= y →
  ∃ row v,
    calculate_ndvi nir red !! i = Some row
    ∧ row !! j = Some v
    ∧ (v = NaN ↔ x = 0 ∧ y = 0)
    ∧ v ≠ PInf ∧ v ≠ NInf.
Proof.
  intros Hn Hx Hr Hy Hx0 Hy0.
  destruct (calculate_ndvi_lookup nir red i j rn rr _ _ Hn Hx Hr Hy)
    as (row & Hrow & Hv).
  exists row, (fdiv (fsub (Fin x) (Fin y)) (fadd (Fin x) (Fin y))).
  split_and!; [done..| | |]; cbn [fsub fadd fneg]; unfold fdiv.
  - destruct (decide (x + y = 0)) as [H0|H0].
    + assert (x = 0 ∧ y = 0) as [-> ->] by (split; lra).
      rewrite decide_True by lra. done.
    + split; [done|]. intros [-> ->]. lra.
  - destruct (decide (x + y = 0)) as [H0|H0]; [|done].
    assert (x = 0 ∧ y = 0) as [-> ->] by (split; lra).
    by rewrite decide_True by lra.
  - destruct (decide (x + y = 0)) as [H0|H0]; [|done].
    assert (x = 0 ∧ y = 0) as [-> ->] by (split; lra).
    by rewrite decide_True by lra.
Qed.

Lemma calculate_ndvi_nan_pixels_witness :
  ∃ row v,
    calculate_ndvi [[Fin 3; Fin 0]] [[Fin 1; Fin 0]] !! 0%nat = Some row
    ∧ row !! 1%nat = Some v
    ∧ (v = NaN ↔ 0 = 0 ∧ 0 = 0)
    ∧ v ≠ PInf ∧ v ≠ NInf.
Proof.
  apply (calculate_ndvi_nan_pixels [[Fin 3; Fin 0]] [[Fin 1; Fin 0]] 0 1
           [Fin 3; Fin 0] [Fin 1; Fin 0] 0 0); try reflexivity; lra.
Defined.

(** With the soil factor [l = 0] the soil-adjusted index is the NDVI. *)
Theorem calculate_savi_zero_l nir red :
  calculate_savi nir red (of_int 0) = calculate_ndvi nir red.
Proof.
  rewrite calculate_savi_fused, calculate_ndvi_fused.
  apply np_map2_ext. intros x y. unfold of_int. cbn [fadd].
  assert (∀ v, fmul (Fin (1 + 0)) v = v) as ->.
  { intros [r| | |]; cbn [fmul]; rewrite ?scale_inf_pos by lra; try done.
    f_equal. lra. }
  assert (∀ v, fadd v (Fin 0) = v) as ->; [|done].
  intros [r| | |]; cbn [fadd]; try done. f_equal. lra.
Qed.

(** What [np.clip(v, -1, 1)] gives. *)
Lemma np_clip_unit v :
  np_clip (of_int (-1)) (of_int 1) v = NaN
  ∨ ∃ r, np_clip (of_int (-1)) (of_int 1) v = Fin r ∧ -1 <= r <= 1.
Proof.
  unfold np_clip, np_maximum, np_minimum, of_int.
  destruct v as [x| | |]; cbn [flt]; [| | |by left].
  - case_bool_decide; cbn [flt].
    + right. exists (-1). rewrite bool_decide_false by lra. split; [done|lra].
    + case_bool_decide; right; eexists; (split; [done|lra]).
  - right. exists 1. split; [done|lra].
  - right. exists (-1). cbn [flt]. rewrite bool_decide_false by lra.
    split; [done|lra].
Qed.

(** With [clip] set, every pixel of the enhanced index, and of its
    two-band form, is NaN or within [-1, 1], whatever the input. *)
Theorem calculate_evi_clip nir red blue c1 c2 c l g :
  Forall (Forall (λ v, v = NaN ∨ ∃ r, v = Fin r ∧ -1 <= r <= 1))
    (calculate_evi nir red blue c1 c2 l g true)
  ∧ Forall (Forall (λ v, v = NaN ∨ ∃ r, v = Fin r ∧ -1 <= r <= 1))
      (calculate_evi2 nir red c l g true).
Proof.
  unfold calculate_evi, calculate_evi2, np_map at 1 4.
  split; apply Forall_fmap, Forall_true; intros row;
    apply Forall_fmap, Forall_true; intros v; apply np_clip_unit.
Qed.

(** Without [clip], for reflectances that are not negative, [l > 0]
    and [c >= 1], the two-band enhanced index at a pixel is finite and
    its size is at most that of the gain [g]. *)
Theorem calculate_evi2_bounded nir red c l g i j rn rr x y :
  nir !! i = Some rn → rn !! j = Some (Fin x) →
  red !! i = Some rr → rr !! j = Some (Fin y) →
  0 <= x → 0 <= y → 0 < l → 1 <= c →
  ∃ row v,
    calculate_evi2 nir red (Fin c) (Fin l) (Fin g) false !! i = Some row
    ∧ row !! j = Some (Fin v)
    ∧ - Rabs g <= v <= Rabs g.
Proof.
  intros Hn Hx Hr Hy Hx0 Hy0 Hl Hc.
  rewrite calculate_evi2_fused.
  destruct (np_map2_lookup
              (λ x y, fmul (Fin g) (fdiv (fsub x y)
                                         (fadd (fadd (Fin l) x) (fmul (Fin c) y))))
              nir red i j rn rr _ _ Hn Hx Hr Hy) as (row & Hrow & Hv).
  assert (0 < l + x + c * y) as Hpos by nra.
  exists row, (g * ((x + - y) / (l + x + c * y))).
  split; [done|split].
  - rewrite Hv. cbn [fsub fadd fneg fmul]. rewrite fdiv_fin by lra. done.
  - set (q := (x + - y) / (l + x + c * y)).
    assert (q * (l + x + c * y) = x + - y) as Hmul by (subst q; field; lra).
    assert (-1 <= q <= 1) as Hq.
    { split; apply (Rmult_le_reg_r (l + x + c * y)); try done;
        rewrite Hmul; nra. }
    unfold Rabs. destruct (Rcase_abs g); nra.
Qed.

Lemma calculate_evi2_bounded_witness :
  ∃ row v,
    calculate_evi2 [[Fin 1; Fin 0]] [[Fin 0; Fin 1]]
      (Fin (24 / 10)) (Fin 1) (Fin (5 / 2)) false !! 0%nat = Some row
    ∧ row !! 0%nat = Some (Fin v)
    ∧ - Rabs (5 / 2) <= v <= Rabs (5 / 2).
Proof.
  apply (calculate_evi2_bounded [[Fin 1; Fin 0]] [[Fin 0; Fin 1]]
           (24 / 10) 1 (5 / 2) 0 0 [Fin 1; Fin 0] [Fin 0; Fin 1] 1 0);
    try reflexivity; lra.
Defined.

(** ** coordinate_utils.py and analysis_pipeline.py: the order of the corners *)

Lemma check_bbox_swap_lon lon1 lat1 lon2 lat2 :
  check_bbox (Fin lon2, lat1, Fin lon1, lat2)
  = check_bbox (Fin lon1, lat1, Fin lon2, lat2).
Proof.
  unfold check_bbox. cbn [flt].
  repeat case_bool_decide; try done; try (exfalso; lra).
  assert (lon1 = lon2) as -> by lra. done.
Qed.

Lemma check_bbox_swap_lat lon1 lat1 lon2 lat2 :
  check_bbox (lon1, Fin lat2, lon2, Fin lat1)
  = check_bbox (lon1, Fin lat1, lon2, Fin lat2).
Proof.
  unfold check_bbox. cbn [flt]. destruct (flt lon2 lon1);
    repeat case_bool_decide; try done; try (exfalso; lra);
    assert (lat1 = lat2) as -> by lra; done.
Qed.

(** The tiling of a finite box does not depend on which of its corners
    are given: swapping the two longitudes, the two latitudes, or both,
    gives the same plan. *)
Theorem initialize_analysis_tiling_corner_order `{L : Libm} lon1 lat1 lon2 lat2
    im p :
  initialize_analysis_tiling (Fin lon2, Fin lat1, Fin lon1, Fin lat2) im p
  = initialize_analysis_tiling (Fin lon1, Fin lat1, Fin lon2, Fin lat2) im p
  ∧ initialize_analysis_tiling (Fin lon1, Fin lat2, Fin lon2, Fin lat1) im p
    = initialize_analysis_tiling (Fin lon1, Fin lat1, Fin lon2, Fin lat2) im p
  ∧ initialize_analysis_tiling (Fin lon2, Fin lat2, Fin lon1, Fin lat1) im p
    = initialize_analysis_tiling (Fin lon1, Fin lat1, Fin lon2, Fin lat2) im p.
Proof.
  unfold initialize_analysis_tiling. split_and!.
  - by rewrite check_bbox_swap_lon.
  - by rewrite check_bbox_swap_lat.
  - by rewrite check_bbox_swap_lon, check_bbox_swap_lat.
Qed.

(** ** scale_space_tree_detection.py *)

Lemma io_bind_lift {A B} (r : result A) (f : A → io B) w :
  (lift r ≫= f) w = match r with Ret a => f a w | Raise e => (Raise e, w) end.
Proof. unfold mbind, io_bind, lift. by destruct r. Qed.

(** A tile that has a result is skipped, when earlier results are to be
    kept: nothing is computed or written, and the answer is [None].  The
    test looks for [<filename>.csv], whatever format the results are
    written in. *)
Theorem scale_space_tree_detect_skips `{Services} `{L : Libm} images folders
    s fname b w results :
  redo_if_already_processed s = false →
  getitem folders "results" = Ret results →
  is_Some (files w !! os_path_join results (fname +:+ ".csv")) →
  scale_space_tree_detect images folders s fname b w
  = (Ret None,
     World (files w) (wms_requests w)
       (stdout w ++ ["doing scale space tree detection"])).
Proof.
  intros Hredo Hres Hfile. unfold scale_space_tree_detect.
  rewrite Hredo, Hres, io_bind_print. cbv beta.
  unfold mbind at 1, io_bind at 1. rewrite io_bind_lift_Ret.
  unfold os_path_exists. cbn [files].
  by rewrite bool_decide_true by done.
Qed.

Lemma scale_space_tree_detect_skips_witness :
  scale_space_tree_detect (H := online_services) (L := real_libm)
    [("nir", demo_image)]
    demo_folders (detector_settings false (Fin 1) (Fin 1) "txt") "0_0"
    (Fin 0, Fin 0, Fin 1, Fin 1) analysed_world
  = (Ret None,
     World (files analysed_world) (wms_requests analysed_world)
       (stdout analysed_world ++ ["doing scale space tree detection"])).
Proof.
  apply (scale_space_tree_detect_skips (H := online_services)
           (L := real_libm) _ _ _ _ _ _ "./data/run/results");
    [reflexivity..|].
  by eexists.
Defined.

(** A pixel size or a radius step of zero makes the detector raise
    [ZeroDivisionError] before the blob detector is called; no file is
    written. *)
Theorem scale_space_tree_detect_zero_division `{Services} `{L : Libm} images
    folders s fname b w nir_api c_nir c_red c_green p :
  redo_if_already_processed s = true →
  getitem (data_api s) "nir" = Ret nir_api →
  getitem images "nir" = Ret ([c_nir; c_red; c_green] : image) →
  data_pixel_size s = Fin p →
  p = 0 ∨ steprad s = Fin 0 →
  scale_space_tree_detect images folders s fname b w
  = (Raise ZeroDivisionError,
     World (files w) (wms_requests w)
       (stdout w ++ ["doing scale space tree detection"])).
Proof.
  intros Hredo Hapi Himg Hp Hzero. unfold scale_space_tree_detect.
  rewrite Hredo, Hapi, Himg, Hp.
  io_run. cbn [split_channels clamp_values map]. io_run.
  destruct (decide (p = 0)) as [->|Hp0].
  { by rewrite !py_div_zero, io_bind_lift. }
  destruct Hzero as [?|Hstep]; [done|]. rewrite Hstep.
  rewrite !py_div_nonzero by done. io_run.
  rewrite fdiv_fin by done.
  replace (0 / p) with 0 by (unfold Rdiv; by rewrite Rmult_0_l).
  rewrite (overflow_fin 0)
    by (pose proof float_overflow_large; rewrite Rabs_R0; lra).
  by rewrite py_div_zero, io_bind_lift.
Qed.

Lemma scale_space_tree_detect_zero_division_witness :
  scale_space_tree_detect (H := online_services) (L := real_libm)
    [("nir", demo_image)]
    demo_folders (detector_settings true (Fin 1) (Fin 0) "csv") "0_0"
    (Fin 0, Fin 0, Fin 1, Fin 1) empty_world
  = (Raise ZeroDivisionError,
     World (files empty_world) (wms_requests empty_world)
       (stdout empty_world ++ ["doing scale space tree detection"])).
Proof.
  apply (scale_space_tree_detect_zero_division (H := online_services)
           (L := real_libm) _ _ _ _ _ _
           demo_api [[Fin 200; Fin 100]] [[Fin 50; Fin 100]] [[Fin 0; Fin 0]] 1);
    [reflexivity..|by right].
Defined.

(** The detector sends no request, and changes at most one file: when
    it returns a table and results are to be saved, the file named after
    the tile holds that table.  In every other case, among them every
    failure, the files are as before. *)
Theorem scale_space_tree_detect_effects `{Services} `{L : Libm} images folders
    s fname b w :
  let '(r, w') := scale_space_tree_detect images folders s fname b w in
  wms_requests w' = wms_requests w
  ∧ (files w' = files w
     ∨ ∃ feats results,
         r = Ret (Some feats) ∧ save_results s = true
         ∧ getitem folders "results" = Ret results
         ∧ files w'
           = <[os_path_join results (fname +:+ "." +:+ output_file_format s)
               := ResultFile feats]> (files w)).
Proof.
  unfold scale_space_tree_detect. rewrite io_bind_print. cbv beta.
  set (w0 := World _ _ _).
  unfold mbind at 1, io_bind at 1.
  assert (∀ skip w1, w1 = w0 →
    let '(r, w') :=
      (if (skip : bool) then mret None
       else
         nir_api ← lift (getitem (data_api s) "nir");
         nir_img ← lift (getitem images "nir");
         '(nir, red) ← lift (match split_channels
                                     (clamp_values nir_img (api_max_value nir_api)) with
                             | [nir; red; green] => Ret (nir, red)
                             | _ => Raise ValueError
                             end);
         minradpix ← lift (py_div (minrad s) (data_pixel_size s));
         maxradpix ← lift (py_div (maxrad s) (data_pixel_size s));
         difradpix ← lift (py_div (fsub (maxrad s) (minrad s)) (data_pixel_size s));
         stepradpix ← lift (py_div (steprad s) (data_pixel_size s));
         q ← lift (py_div difradpix stepradpix);
         nscales ← lift (py_int q);
         blobs ← lift (log_blob_detect (calculate_ndvi nir red)
           (BlobKwargs minradpix maxradpix nscales
              (blob_overlap_threshold s) (threshold_rel_blob_peaks s)));
         result ← lift (blobs_to_features blobs (calculate_ndvi nir red)
                          (data_pixel_size s) b);
         (if save_results s then
            print "saving results";;
            results ← lift (getitem folders "results");
            write_file (os_path_join results (fname +:+ "." +:+ output_file_format s))
              (ResultFile result)
          else mret ());;
         mret (Some result)) w1 in
    wms_requests w' = wms_requests w
    ∧ (files w' = files w
       ∨ ∃ feats results,
           r = Ret (Some feats) ∧ save_results s = true
           ∧ getitem folders "results" = Ret results
           ∧ files w'
             = <[os_path_join results (fname +:+ "." +:+ output_file_format s)
                 := ResultFile feats]> (files w))) as Hbody.
  { intros [|] w1 ->; [by split; [|left]|].
    repeat (rewrite io_bind_lift;
            match goal with
            | |- context [match ?r with Ret _ => _ | Raise _ => _ end] =>
                destruct r as [?|?]
            end; [|by split; [|left]];
            try match goal with
                | |- context [let '(_, _) := ?p in _] => is_var p; destruct p
                end).
    unfold mbind at 1, io_bind at 1.
    destruct (save_results s) eqn:Hsave; [|by split; [|left]].
    rewrite io_bind_print, io_bind_lift.
    destruct (getitem folders "results") as [results|] eqn:Hres;
      [|by split; [|left]].
    unfold write_file. cbn. split; [done|]. right. by eexists _, _. }
  destruct (redo_if_already_processed s).
  - by apply (Hbody false).
  - rewrite io_bind_lift.
    destruct (getitem folders "results") as [results|]; [|by split; [|left]].
    unfold os_path_exists. by apply Hbody.
Qed.



(** ** input_utils.py *)

Lemma images_already_saved_loop_spec folders fname apis w :
  images_already_saved_loop folders fname apis w = (Ret true, w)
  ↔ Forall (λ ka : string * api_settings,
      api_use ka.2 = true →
      ∃ folder,
        getitem folders ka.1 = Ret folder
        ∧ is_Some (files w !! os_path_join folder
                     (fname +:+ "." +:+ api_save_format ka.2))) apis.
Proof.
  induction apis as [|[k a] rest IH]; [by split; [constructor|]|].
  cbn [images_already_saved_loop]. destruct (api_use a) eqn:Huse.
  - rewrite io_bind_lift.
    destruct (getitem folders k) as [folder|e] eqn:Hfolder.
    + unfold mbind at 1, io_bind at 1, os_path_exists at 1.
      case_bool_decide as Hthere.
      * rewrite IH. split.
        -- intros Hrest. constructor; [|done]. intros _. cbn [fst snd]. eauto.
        -- by intros [_ ?]%Forall_cons.
      * split; [by unfold mret, io_ret; intros [=]|].
        intros [Hhead _]%Forall_cons.
        destruct (Hhead Huse) as (folder' & Hfolder' & Hfile).
        cbn [fst snd] in Hfolder', Hfile.
        rewrite Hfolder in Hfolder'. by injection Hfolder' as <-.
    + split; [done|]. intros [Hhead _]%Forall_cons.
      destruct (Hhead Huse) as (folder' & Hfolder' & _).
      cbn [fst snd] in *. congruence.
  - rewrite IH. split.
    + intros Hrest. constructor; [|done]. cbn [snd]. by rewrite Huse.
    + by intros [_ ?]%Forall_cons.
Qed.

(** [images_already_saved] answers [True] exactly when every enabled
    layer has a folder and, in it, the file of the tile. *)
Theorem images_already_saved_spec folders fname s w :
  images_already_saved folders fname s w = (Ret true, w)
  ↔ Forall (λ ka : string * api_settings,
      api_use ka.2 = true →
      ∃ folder,
        getitem folders ka.1 = Ret folder
        ∧ is_Some (files w !! os_path_join folder
                     (fname +:+ "." +:+ api_save_format ka.2))) (data_api s).
Proof. apply images_already_saved_loop_spec. Qed.

(** What the loop of [get_images_from_wms_service] does to the world:
    it leaves files and output alone and sends at most one request per
    client, each for the bounding box it was given. *)
Lemma get_images_loop_effects `{Services} wmses s b acc w :
  let '(r, w') :=
    for_each wmses (λ images '(api_key, api_service),
      a ← lift (getitem (data_api s) api_key);
      if api_use a then
        img ←
          (if bool_decide (api_servicetype a = "WebMapService") then
             getmap_imread api_service a (data_coord_crs s) b (data_im_size_out s)
           else lift (Raise ValueError));
        mret (dict_set images api_key img)
      else mret images) acc w in
  files w' = files w ∧ stdout w' = stdout w
  ∧ ∃ reqs,
      wms_requests w' = wms_requests w ++ reqs
      ∧ Forall (λ q, q.2 = b) reqs
      ∧ length reqs ≤ length wmses.
Proof.
  revert acc w. induction wmses as [|[k c] rest IH]; intros acc w.
  { cbn. split_and!; [done..|]. exists []. by rewrite app_nil_r. }
  cbn [for_each]. unfold mbind at 1, io_bind at 1. rewrite io_bind_lift.
  destruct (getitem (data_api s) k) as [a|e].
  2: { split_and!; [done..|]. exists []. rewrite app_nil_r.
       split_and!; [done|constructor|cbn; lia]. }
  destruct (api_use a).
  2: { unfold mret, io_ret. specialize (IH acc w).
       destruct (for_each rest _ acc w) as [r w'].
       destruct IH as (? & ? & reqs & ? & ? & ?).
       split_and!; [done..|]. exists reqs. split_and!; [done..|cbn; lia]. }
  case_bool_decide.
  2: { rewrite io_bind_lift. split_and!; [done..|]. exists [].
       rewrite app_nil_r. split_and!; [done|constructor|cbn; lia]. }
  unfold mbind at 1, io_bind at 1, getmap_imread at 1.
  destruct (wms_getmap _ _ _ _ _ _) as [img|e].
  2: { cbn [files stdout wms_requests]. split_and!; [done..|].
       exists [(api_layer a, b)].
       split_and!; [done|by repeat constructor|cbn; lia]. }
  unfold mret at 1, io_ret at 1.
  match goal with
  | |- context [for_each rest ?body ?acc' ?w1] =>
      specialize (IH acc' w1); destruct (for_each rest body acc' w1) as [r w']
  end.
  destruct IH as (Hfiles & Hout & reqs & Hreqs & Hall & Hlen).
  cbn [files stdout wms_requests] in *. split_and!; [done..|].
  exists ((api_layer a, b) :: reqs). split_and!.
  - by rewrite Hreqs, <- app_assoc.
  - by constructor.
  - cbn. lia.
Qed.

(** [get_images_from_wms_service] never touches a file, and requests
    nothing but the bounding box it was given, at most once per client. *)
Theorem get_images_from_wms_service_effects `{Services} wmses s b w :
  let '(r, w') := get_images_from_wms_service wmses s b w in
  files w' = files w
  ∧ ∃ reqs,
      wms_requests w' = wms_requests w ++ reqs
      ∧ Forall (λ q, q.2 = b) reqs
      ∧ length reqs ≤ length wmses.
Proof.
  unfold get_images_from_wms_service. rewrite io_bind_print. cbv beta zeta.
  match goal with
  | |- context [for_each wmses ?body ?acc ?w0] =>
      pose proof (get_images_loop_effects wmses s b acc w0) as Hloop;
      cbv beta zeta in Hloop;
      destruct (for_each wmses body acc w0) as [r w']
  end.
  destruct Hloop as (Hfiles & _ & reqs & Hreqs & Hall & Hlen).
  cbn [files wms_requests] in *. eauto.
Qed.







(** ** analysis_pipeline.py *)

Lemma analysis_pipeline_returns_witness :
  ∃ total w2 st w3 w4,
    select_total demo_folders demo_coord_df None empty_world = (Ret total, w2)
    ∧ main_loop (H := online_services) (demo_settings false) demo_folders
        demo_coord_df None demo_getters total w2
      = (Ret st, w3)
    ∧ log_failed demo_folders (length total) st w3 = (Ret (), w4)
    ∧ analysis_pipeline (H := online_services) (demo_settings false)
        demo_folders demo_coord_df None None empty_world
      = (Ret (demo_folders, succeeded st, failed st), w4).
Proof.
  apply (analysis_pipeline_returns (H := online_services) (demo_settings false)
           demo_folders demo_coord_df None None empty_world demo_getters
           empty_world "./data/run"); reflexivity.
Defined.

(** Setting up the clients stops at an enabled layer whose service is
    not a Web Map Service, unless connecting an earlier layer has failed
    already; the world is as before. *)
Lemma setup_data_getters_loop_unsupported `{Services} apis k a acc w :
  (k, a) ∈ apis → api_use a = true → api_servicetype a ≠ "WebMapService" →
  ∃ e,
    for_each apis (λ data_getters '(api_key, a),
      if api_use a then
        if bool_decide (api_servicetype a = "WebMapService") then
          client ← (λ w, (wms_connect (api_url a) (api_version a) w, w));
          mret (dict_set data_getters api_key client)
        else lift (Raise ValueError)
      else mret data_getters) acc w
    = (Raise e, w)
    ∧ (e = ValueError ∨ ∃ url version, wms_connect url version w = Raise e).
Proof.
  intros Hin Huse Htype. revert acc.
  induction apis as [|[k' a'] rest IH]; intros acc; [by apply elem_of_nil in Hin|].
  cbn [for_each]. unfold mbind at 1, io_bind at 1.
  apply elem_of_cons in Hin as [[= <- <-]|Hin].
  { rewrite Huse, bool_decide_false by done. exists ValueError. by split; [|left]. }
  destruct (api_use a'); [|by apply IH].
  case_bool_decide; [|exists ValueError; by split; [|left]].
  unfold mbind at 1, io_bind at 1.
  destruct (wms_connect (api_url a') (api_version a') w) as [client|e] eqn:Hconnect.
  - by apply IH.
  - exists e. split; [done|]. right. eauto.
Qed.

(** A run with an enabled layer of another service type than
    ['WebMapService'] fails before any tile is handled: nothing is
    printed, requested or written. *)
Theorem analysis_pipeline_unsupported_service `{Services} s folders coord_df
    analysis_method todo w k a :
  (k, a) ∈ data_api s → api_use a = true →
  api_servicetype a ≠ "WebMapService" →
  ∃ e,
    analysis_pipeline s folders coord_df analysis_method todo w = (Raise e, w)
    ∧ (e = ValueError ∨ ∃ url version, wms_connect url version w = Raise e).
Proof.
  intros Hin Huse Htype.
  destruct (setup_data_getters_loop_unsupported (data_api s) k a [] w
              Hin Huse Htype) as (e & Hsetup & He).
  exists e. split; [|done].
  unfold analysis_pipeline. unfold mbind at 1, io_bind at 1.
  unfold setup_data_getters. by rewrite Hsetup.
Qed.

Lemma analysis_pipeline_unsupported_service_witness :
  ∃ e,
    analysis_pipeline (H := online_services) wcs_settings demo_folders
      demo_coord_df None None empty_world
    = (Raise e, empty_world)
    ∧ (e = ValueError
       ∨ ∃ url version,
           wms_connect (Services := online_services) url version empty_world
           = Raise e).
Proof.
  apply (analysis_pipeline_unsupported_service (H := online_services)
           wcs_settings demo_folders demo_coord_df None None empty_world
           "dsm" wcs_api).
  - apply elem_of_cons. right. apply elem_of_cons. by left.
  - reflexivity.
  - discriminate.
Defined.
